(** * WP Engine Domain Monitor: the classification engine of [server.js]

    A shallow embedding of the DNS verifier, the status classifier, the
    refresh pipeline, the override store and the single-flight guard of
    [server.js] (the same functions appear verbatim in
    [generate-dashboard.js]), followed by the properties proved about them.

    Conventions.  A JavaScript value that may be [undefined] or [null] is an
    [option]; the own entries of a plain object used as a dictionary are a
    [gmap], and the override store, which a request can write under any
    name, is modelled with its prototype chain as well; a [Set] is a
    [gset]; an [async] function that may reject returns an [Outcome]. *)

From Stdlib Require Import String Ascii Permutation.
From stdpp Require Import base option list strings gmap pretty.

Local Open Scope string_scope.

(** ** JavaScript string primitives used by the program *)

Module Js.

(** [s.startsWith(p)] *)
Definition startsWith (s p : string) : bool := String.prefix p s.

(** [s.endsWith(suf)]: some tail of [s] is [suf]. *)
Fixpoint endsWith (s suf : string) : bool :=
  if String.eqb s suf then true
  else match s with
       | EmptyString => false
       | String _ s' => endsWith s' suf
       end.

Definition upper_ascii (c : ascii) : ascii :=
  let n := nat_of_ascii c in
  if (97 <=? n)%nat && (n <=? 122)%nat then ascii_of_nat (n - 32) else c.

(** [s.toUpperCase()] on ASCII text, which is what the provider's status
    tokens are made of: the letters a..z are raised, every other character
    is kept.  Outside ASCII the method follows the Unicode case mapping
    (a dotless i is raised to the letter I), which this function does not;
    [isAscii] below marks the strings on which the two agree. *)
Fixpoint toUpperCase (s : string) : string :=
  match s with
  | EmptyString => EmptyString
  | String c s' => String (upper_ascii c) (toUpperCase s')
  end.

(** The strings made of ASCII characters only. *)
Definition isAscii (s : string) : bool :=
  forallb (fun c => (nat_of_ascii c <? 128)%nat) (list_ascii_of_string s).

(** Truthiness of a string that may be missing: [undefined], [null] and
    the empty string are falsy. *)
Definition truthy (o : option string) : bool :=
  match o with
  | Some s => negb (String.eqb s "")
  | None => false
  end.

(** [o === s] for a possibly missing string [o]. *)
Definition strictEq (o : option string) (s : string) : bool :=
  match o with
  | Some s' => String.eqb s' s
  | None => false
  end.

(** [o || null] *)
Definition or_null (o : option string) : option string :=
  if truthy o then o else None.

(** [o || dflt] *)
Definition or_else (o : option string) (dflt : string) : string :=
  match o with
  | Some s => if String.eqb s "" then dflt else s
  | None => dflt
  end.

(** [l.some(p)] *)
Definition some {A} (p : A -> bool) (l : list A) : bool := existsb p l.

(** [l.includes(x)] on strings *)
Definition includes (l : list string) (x : string) : bool :=
  existsb (String.eqb x) l.

End Js.

(** The outcome of an [async] function: it fulfils, it rejects with an
    error message, or the model ran out of fuel before it settled. *)
Inductive Outcome (A : Type) : Type :=
| Ok (a : A)
| Throw (e : string)
| OutOfFuel.
Arguments Ok {A} a.
Arguments Throw {A} e.
Arguments OutOfFuel {A}.

(** ** Records returned by the hosting API *)

Module Api.

Record Ssl := { ssl_status : option string }.

Record NetworkInfo := {
  status : option string;
  ssl : option Ssl }.

Record DnsConfigInfo := {
  cname : option string;
  a_records : option (list string) }.

Record NetworkDetails := {
  network_info : option NetworkInfo;
  dns_config_info : option DnsConfigInfo }.

Record RedirectTo := { redirect_name : option string }.

Record Domain := {
  name : string;
  id : string;
  primary : bool;
  network_type : option string;
  redirect_to : option RedirectTo;
  network_details : option NetworkDetails }.

Record Install := {
  inst_name : string;
  inst_id : string;
  environment : string;
  primary_domain : option string;
  inst_cname : option string;
  php_version : option string }.

(** One page of [/installs?limit=100&offset=..]:
    [data.results] and [data.next]. *)
Record InstallsPage := {
  results : option (list Install);
  next : option string }.

(** [/installs/<id>/domains?limit=100]: [data.results]. *)
Record DomainsPage := { dom_results : option (list Domain) }.

End Api.

(** ** DNS verifier *)

Definition WPE_CNAME_SUFFIXES : list string :=
  [".wpengine.com"; ".wpenginepowered.com"; ".wpesvc.net"; ".wpeproxy.com"].

Definition WPE_IP_PREFIXES : list string :=
  ["141.193.213."; "35.203.43."; "172.64.80."].

Record DNSResult := {
  ips : list string;
  cnames : list string;
  resolved : bool }.

(** [dnsLookup]: [resolve4] and [resolveCname] are the two calls to the
    system resolver; [None] is a rejected promise, swallowed by the
    [try { .. } catch {}] around each call. *)
Definition dnsLookup (resolve4 resolveCname : string -> option (list string))
    (domain : string) : DNSResult :=
  let result := {| ips := []; cnames := []; resolved := false |} in
  let result :=
    match resolve4 domain with
    | Some l => {| ips := l; cnames := cnames result; resolved := true |}
    | None => result
    end in
  match resolveCname domain with
  | Some l => {| ips := ips result; cnames := l;
                 resolved := resolved result || (0 <? length l)%nat |}
  | None => result
  end.

Definition dnsPointsToWPE (dnsResult : option DNSResult)
    (installCname : option string) (allDomainNames : option (gset string)) : bool :=
  match dnsResult with
  | None => false
  | Some r =>
    if negb (resolved r) then false
    else if (0 <? length (cnames r))%nat
            && Js.some (fun c => Js.some (fun s => Js.endsWith c s) WPE_CNAME_SUFFIXES
                                 || Js.strictEq installCname c) (cnames r)
    then true
    else if (0 <? length (cnames r))%nat
            && match allDomainNames with
               | Some idx => Js.some (fun c => bool_decide (c ∈ idx)) (cnames r)
               | None => false
               end
    then true
    else if (0 <? length (ips r))%nat
            && Js.some (fun ip => Js.some (fun p => Js.startsWith ip p) WPE_IP_PREFIXES) (ips r)
    then true
    else false
  end.

(** ** Status classifier *)

Record Verdict := { status : string; detail : string }.

Definition isSystemName (n : string) : bool :=
  Js.endsWith n ".wpenginepowered.com" || Js.endsWith n ".wpengine.com".

(** [domain.network_details?.network_info?.status?.toUpperCase()] *)
Definition networkStatus (domain : Api.Domain) : option string :=
  nd ← Api.network_details domain;
  ni ← Api.network_info nd;
  st ← Api.status ni;
  Some (Js.toUpperCase st).

(** [domain.network_details?.dns_config_info?.cname || null] *)
Definition expectedCname (domain : Api.Domain) : option string :=
  Js.or_null (nd ← Api.network_details domain;
              ci ← Api.dns_config_info nd;
              Api.cname ci).

(** [domain.network_details?.dns_config_info?.a_records || []] *)
Definition expectedARecords (domain : Api.Domain) : list string :=
  default [] (nd ← Api.network_details domain;
              ci ← Api.dns_config_info nd;
              Api.a_records ci).

Definition dnsMatchesExpected (domain : Api.Domain) (dnsResult : option DNSResult) : bool :=
  match dnsResult with
  | Some r =>
    if (0 <? length (ips r))%nat && (0 <? length (expectedARecords domain))%nat
    then Js.some (fun ip => Js.includes (expectedARecords domain) ip) (ips r)
    else false
  | None => false
  end.

Definition cnameMatchesExpected (domain : Api.Domain) (dnsResult : option DNSResult) : bool :=
  match dnsResult with
  | Some r =>
    if (0 <? length (cnames r))%nat && Js.truthy (expectedCname domain)
    then Js.some (fun c => Js.strictEq (expectedCname domain) c) (cnames r)
    else false
  | None => false
  end.

(** [dnsResult && dnsResult.resolved] and [dnsResult && !dnsResult.resolved] *)
Definition present_resolved (dnsResult : option DNSResult) : bool :=
  match dnsResult with Some r => resolved r | None => false end.
Definition present_unresolved (dnsResult : option DNSResult) : bool :=
  match dnsResult with Some r => negb (resolved r) | None => false end.

Definition determineDomainStatus (domain : Api.Domain) (dnsResult : option DNSResult)
    (installCname : option string) (allDomainNames : option (gset string)) : Verdict :=
  if isSystemName (Api.name domain)
  then {| status := "system"; detail := "System domain" |}
  else
    let dnsMatches := dnsPointsToWPE dnsResult installCname allDomainNames in
    if Js.strictEq (networkStatus domain) "ACTIVE" then
      if dnsMatches || dnsMatchesExpected domain dnsResult
         || cnameMatchesExpected domain dnsResult
      then {| status := "good"; detail := "Active & DNS pointed" |}
      else if present_resolved dnsResult
      then {| status := "issue"; detail := "DNS not pointed to WPE" |}
      else if present_unresolved dnsResult
      then {| status := "issue"; detail := "DNS not resolving" |}
      else {| status := "good"; detail := "Active (API)" |}
    else if Js.strictEq (networkStatus domain) "PENDING"
    then {| status := "pending"; detail := "Pending setup" |}
    else if Js.strictEq (networkStatus domain) "DELETED"
    then {| status := "issue"; detail := "Network deleted" |}
    else if negb (Js.truthy (networkStatus domain)) then
      if dnsMatches
      then {| status := "good"; detail := "DNS pointed (Legacy)" |}
      else if present_resolved dnsResult
      then {| status := "issue"; detail := "DNS not pointed to WPE" |}
      else if present_unresolved dnsResult
      then {| status := "issue"; detail := "DNS not resolving" |}
      else {| status := "unknown"; detail := "No status data" |}
    else {| status := "unknown"; detail := Js.or_else (networkStatus domain) "Unknown" |}.

(** ** Snapshot: what a refresh stores and what [/api/data] serves *)

(** An enriched domain.  The last three fields exist only on a domain
    rewritten by [applyConfirmedOverrides]; [None] is an absent property. *)
Module EDomain.
Record t := {
  name : string;
  id : string;
  primary : bool;
  network_type : string;
  redirect_to : option string;
  isSystem : bool;
  dns : option DNSResult;
  status : string;
  detail : string;
  sslStatus : option string;
  expectedCname : option string;
  expectedARecords : list string;
  originalStatus : option string;
  originalDetail : option string;
  confirmedAt : option string }.
End EDomain.

Module Site.
Record t := {
  name : string;
  id : string;
  environment : string;
  primary_domain : option string;
  cname : option string;
  php_version : option string;
  domains : list EDomain.t;
  issueCount : nat;
  pendingCount : nat;
  confirmedCount : option nat }.
End Site.

Module Stats.
Record t := {
  totalSites : nat;
  totalDomains : nat;
  customDomains : nat;
  good : nat;
  issues : nat;
  pending : nat;
  timestamp : string;
  confirmed : option nat }.
End Stats.

Module Snapshot.
Record t := {
  sites : list Site.t;
  stats : Stats.t }.
End Snapshot.

(** [l.filter(d => d.status === s).length] *)
Definition countStatus (s : string) (l : list EDomain.t) : nat :=
  length (filter (fun d => EDomain.status d = s) l).

(** [l.filter(d => !d.isSystem)] *)
Definition customOf (l : list EDomain.t) : list EDomain.t :=
  filter (fun d => EDomain.isSystem d = false) l.

(** ** Bounded-concurrency helper *)

(** [items.slice(i, j)] for [i <= j]. *)
Definition slice {A} (items : list A) (i j : nat) : list A :=
  take (j - i) (drop i items).

Section BatchAsync.
Context {A B S : Type}.

(** The callback as [batch.map(fn)] calls it: item, index in the batch,
    the batch.  It yields the value its promise settles with and the
    effect the continuation after its [await] has on the shared state. *)
Variable fn : A -> nat -> list A -> B * (S -> S).

(** The order in which the promises of one batch settle. *)
Variable completion : list (S -> S) -> list (S -> S).

(** The [for (let i = 0; i < items.length; i += concurrency)] loop;
    [Promise.all] returns the values in the order of the batch, whatever
    the order of completion. *)
Fixpoint batchAsync_loop (fuel : nat) (items : list A) (concurrency : nat)
    (i : nat) (results : list B) (st : S) : Outcome (list B * S) :=
  if negb (i <? length items)%nat then Ok (results, st)
  else match fuel with
       | 0 => OutOfFuel
       | Datatypes.S fuel' =>
         let batch := slice items i (i + concurrency) in
         let settled := imap (fun k x => fn x k batch) batch in
         let st' := foldl (fun s eff => eff s) st (completion (snd <$> settled)) in
         batchAsync_loop fuel' items concurrency (i + concurrency)
                         (results ++ (fst <$> settled))%list st'
       end.

Definition batchAsync (fuel : nat) (items : list A) (concurrency : nat) (st : S)
  : Outcome (list B * S) :=
  batchAsync_loop fuel items concurrency 0 [] st.

End BatchAsync.

(** ** Refresh pipeline *)

(** A settled promise of a collaborator (HTTP client). *)
Inductive Settled (A : Type) : Type :=
| Fulfilled (a : A)
| Rejected (e : string).
Arguments Fulfilled {A} a.
Arguments Rejected {A} e.

(** The shared state the DNS stage writes: [dnsResults], [done] and the
    progress message. *)
Record DnsStage := {
  dnsResults : gmap string DNSResult;
  done : nat;
  progress : string }.

(** The process-wide variables of [server.js]. *)
Record Override := { confirmedAt : string }.

(** [confirmedDomains] is a plain object used as a dictionary: it has its
    own entries, written by [confirmedDomains[domain] = ...], and behind
    them its prototype chain, which [confirmedDomains[name]] reads as
    well.  The chain is [Object.prototype], with the object that was
    assigned to the key [__proto__] in front of it once there is one. *)
Record Store := {
  entries : gmap string Override;
  prototype : option Override }.

#[global] Instance Store_empty : Empty Store :=
  {| entries := ∅; prototype := None |}.

(** What reading a key of the store can give: an entry
    [{ confirmedAt }], a string (the [confirmedAt] of an assigned
    prototype), or a member of [Object.prototype] (a function, or
    [Object.prototype] itself for [__proto__]). *)
Inductive StoreValue :=
| VEntry (o : Override)
| VText (t : string)
| VBuiltin.

(** The data properties of [Object.prototype]; its accessor [__proto__]
    is treated apart. *)
Definition objectPrototypeKeys : list string :=
  ["constructor"; "hasOwnProperty"; "isPrototypeOf"; "propertyIsEnumerable";
   "toLocaleString"; "toString"; "valueOf";
   "__defineGetter__"; "__defineSetter__"; "__lookupGetter__"; "__lookupSetter__"].

Definition inheritedFromObject (key : string) : option StoreValue :=
  if Js.includes objectPrototypeKeys key then Some VBuiltin else None.

(** What the prototype chain of the store answers for a key. *)
Definition storeInherited (st : Store) (key : string) : option StoreValue :=
  if String.eqb key "__proto__" then
    Some (match prototype st with
          | Some p => VEntry p
          | None => VBuiltin
          end)
  else
    match prototype st with
    | Some p =>
      if String.eqb key "confirmedAt" then Some (VText (confirmedAt p))
      else inheritedFromObject key
    | None => inheritedFromObject key
    end.

(** [confirmedDomains[key]]: the own entry, or else what the chain has. *)
Definition storeGet (st : Store) (key : string) : option StoreValue :=
  match entries st !! key with
  | Some o => Some (VEntry o)
  | None => storeInherited st key
  end.

(** [confirmedDomains[key] = v]: an own entry is created or replaced,
    except that the key [__proto__], when it is not an own entry, reaches
    the setter of [Object.prototype], which makes [v] the prototype. *)
Definition storeSet (st : Store) (key : string) (v : Override) : Store :=
  match entries st !! key with
  | None =>
    if String.eqb key "__proto__"
    then {| entries := entries st; prototype := Some v |}
    else {| entries := <[ key := v ]> (entries st); prototype := prototype st |}
  | Some _ => {| entries := <[ key := v ]> (entries st); prototype := prototype st |}
  end.

(** [delete confirmedDomains[key]]: own entries only. *)
Definition storeDelete (st : Store) (key : string) : Store :=
  {| entries := delete key (entries st); prototype := prototype st |}.

(** Truthiness of what a read gave; [None] is [undefined]. *)
Definition valueTruthy (v : option StoreValue) : bool :=
  match v with
  | Some (VEntry _) => true
  | Some (VText t) => negb (String.eqb t "")
  | Some VBuiltin => true
  | None => false
  end.

(** [v.confirmedAt] for a truthy [v]: only an entry has the property. *)
Definition valueConfirmedAt (v : option StoreValue) : option string :=
  match v with
  | Some (VEntry o) => Some (confirmedAt o)
  | _ => None
  end.

Record State := {
  cachedData : option Snapshot.t;
  isRefreshing : bool;
  refreshProgress : string;
  confirmedDomains : Store }.

Section Pipeline.

(** [apiFetch] at [/installs?limit=100&offset=<offset>] and at
    [/installs/<installId>/domains?limit=100]; it rejects when the
    response is not [ok]. *)
Variable apiInstalls : nat -> Settled Api.InstallsPage.
Variable apiDomains : string -> Settled Api.DomainsPage.

(** [dns.resolve4] and [dns.resolveCname]; [None] is a rejection. *)
Variable resolve4 resolveCname : string -> option (list string).

(** Completion order of the lookups of one batch. *)
Variable completion : list (DnsStage -> DnsStage) -> list (DnsStage -> DnsStage).

(** [new Date().toISOString()] when the snapshot is assembled. *)
Variable now : string.

Fixpoint fetchAllInstalls_loop (fuel : nat) (all : list Api.Install) (offset : nat)
  : Outcome (list Api.Install) :=
  match fuel with
  | 0 => OutOfFuel
  | Datatypes.S fuel' =>
    match apiInstalls offset with
    | Rejected e => Throw e
    | Fulfilled data =>
      let all := (all ++ default [] (Api.results data))%list in
      if negb (Js.truthy (Api.next data)) then Ok all
      else fetchAllInstalls_loop fuel' all (offset + 100)
    end
  end.

Definition fetchAllInstalls (fuel : nat) : Outcome (list Api.Install) :=
  fetchAllInstalls_loop fuel [] 0.

Definition fetchDomains (installId : string) : list Api.Domain :=
  match apiDomains installId with
  | Fulfilled data => default [] (Api.dom_results data)
  | Rejected _ => []
  end.

(** [for (const { domains } of installDomains) for (const d of domains)
    allDomainNames.add(d.name)] *)
Definition buildDomainNames (installDomains : list (Api.Install * list Api.Domain))
  : gset string :=
  foldl (fun acc p => foldl (fun acc d => acc ∪ {[ Api.name d ]}) acc p.2)
        ∅ installDomains.

(** The custom domains, flattened in listing order (the [_installCname]
    tag each copy carries is never read). *)
Definition collectCustomDomains (installDomains : list (Api.Install * list Api.Domain))
  : list Api.Domain :=
  p ← installDomains;
  filter (fun d => isSystemName (Api.name d) = false) p.2.

(** The callback of the DNS stage. *)
Definition dnsTask (total : nat) (d : Api.Domain) (_ : nat) (_ : list Api.Domain)
  : DNSResult * (DnsStage -> DnsStage) :=
  let result := dnsLookup resolve4 resolveCname (Api.name d) in
  (result,
   fun st =>
     let done' := Datatypes.S (done st) in
     {| dnsResults := <[ Api.id d := result ]> (dnsResults st);
        done := done';
        progress := if (done' mod 50 =? 0)%nat
                    then "DNS: " +:+ pretty done' +:+ "/" +:+ pretty total
                    else progress st |}).

Definition enrichDomain (dnsRes : gmap string DNSResult) (allDomainNames : gset string)
    (install : Api.Install) (d : Api.Domain) : EDomain.t :=
  let isSystem := isSystemName (Api.name d) in
  let dnsResult := dnsRes !! Api.id d in
  let v := determineDomainStatus d dnsResult (Api.inst_cname install)
                                 (Some allDomainNames) in
  {| EDomain.name := Api.name d;
     EDomain.id := Api.id d;
     EDomain.primary := Api.primary d;
     EDomain.network_type := Js.or_else (Api.network_type d) "";
     EDomain.redirect_to :=
       Js.or_null (rt ← Api.redirect_to d; Api.redirect_name rt);
     EDomain.isSystem := isSystem;
     EDomain.dns := dnsResult;
     EDomain.status := status v;
     EDomain.detail := detail v;
     EDomain.sslStatus :=
       Js.or_null (nd ← Api.network_details d; ni ← Api.network_info nd;
                   s ← Api.ssl ni; Api.ssl_status s);
     EDomain.expectedCname := expectedCname d;
     EDomain.expectedARecords := expectedARecords d;
     EDomain.originalStatus := None;
     EDomain.originalDetail := None;
     EDomain.confirmedAt := None |}.

Definition buildSite (dnsRes : gmap string DNSResult) (allDomainNames : gset string)
    (p : Api.Install * list Api.Domain) : Site.t :=
  let install := p.1 in
  let enrichedDomains := enrichDomain dnsRes allDomainNames install <$> p.2 in
  let custom := customOf enrichedDomains in
  {| Site.name := Api.inst_name install;
     Site.id := Api.inst_id install;
     Site.environment := Api.environment install;
     Site.primary_domain := Api.primary_domain install;
     Site.cname := Api.inst_cname install;
     Site.php_version := Api.php_version install;
     Site.domains := enrichedDomains;
     Site.issueCount := countStatus "issue" custom;
     Site.pendingCount := countStatus "pending" custom;
     Site.confirmedCount := None |}.

Definition buildSnapshot (installs : list Api.Install) (siteData : list Site.t)
  : Snapshot.t :=
  let allDomains := s ← siteData; Site.domains s in
  let customDomains := customOf allDomains in
  {| Snapshot.sites := siteData;
     Snapshot.stats :=
       {| Stats.totalSites := length installs;
          Stats.totalDomains := length allDomains;
          Stats.customDomains := length customDomains;
          Stats.good := countStatus "good" customDomains;
          Stats.issues := countStatus "issue" customDomains;
          Stats.pending := countStatus "pending" customDomains;
          Stats.timestamp := now;
          Stats.confirmed := None |} |}.

(** The domain listing stage: [batchAsync(installs, 10, ..)]. *)
Definition listDomains (fuel : nat) (installs : list Api.Install)
  : Outcome (list (Api.Install * list Api.Domain) * unit) :=
  batchAsync (fun inst _ _ => ((inst, fetchDomains (Api.inst_id inst)), fun u => u))
             (fun l => l) fuel installs 10 tt.

(** The DNS stage: [batchAsync(allCustomDomains, 30, ..)]; its list of
    results is dropped, its writes to [dnsResults] are what is used. *)
Definition dnsStage (fuel : nat) (allCustomDomains : list Api.Domain)
  : Outcome (list DNSResult * DnsStage) :=
  batchAsync (dnsTask (length allCustomDomains)) completion fuel allCustomDomains 30
             {| dnsResults := ∅; done := 0;
                progress := "DNS checks on " +:+ pretty (length allCustomDomains)
                            +:+ " domains..." |}.

(** Everything between the listing of the domains and the assignment to
    [cachedData]. *)
Definition assemble (fuel : nat) (installs : list Api.Install)
    (installDomains : list (Api.Install * list Api.Domain)) : Outcome Snapshot.t :=
  let allDomainNames := buildDomainNames installDomains in
  let allCustomDomains := collectCustomDomains installDomains in
  match dnsStage fuel allCustomDomains with
  | Ok (_, st) =>
    Ok (buildSnapshot installs
          (buildSite (dnsResults st) allDomainNames <$> installDomains))
  | Throw e => Throw e
  | OutOfFuel => OutOfFuel
  end.

(** The body of the [try] block of [refreshData]. *)
Definition pipeline (fuel : nat) : Outcome Snapshot.t :=
  match fetchAllInstalls fuel with
  | Ok installs =>
    match listDomains fuel installs with
    | Ok (installDomains, _) => assemble fuel installs installDomains
    | Throw e => Throw e
    | OutOfFuel => OutOfFuel
    end
  | Throw e => Throw e
  | OutOfFuel => OutOfFuel
  end.

(** [refreshData], one call taken alone.  When a refresh is in flight the
    call polls [isRefreshing]; nothing else runs in this sequential view,
    so the flag never drops and the call does not settle (the interplay
    of several calls is the single-flight model below).  Otherwise the
    flag is raised, the pipeline runs, and [finally] lowers the flag;
    only a pipeline that succeeds assigns [cachedData] and clears the
    progress message; the listing of the installs is the one step that
    can throw, and it leaves the message written before it.  A run that
    does not settle within the fuel is still in flight, flag up. *)
Definition refreshData (fuel : nat) (s : State) : Outcome Snapshot.t * State :=
  if isRefreshing s then (OutOfFuel, s)
  else
    match pipeline fuel with
    | Ok snap =>
      (Ok snap,
       {| cachedData := Some snap; isRefreshing := false; refreshProgress := "";
          confirmedDomains := confirmedDomains s |})
    | Throw e =>
      (Throw e,
       {| cachedData := cachedData s; isRefreshing := false;
          refreshProgress := "Fetching installs...";
          confirmedDomains := confirmedDomains s |})
    | OutOfFuel =>
      (OutOfFuel,
       {| cachedData := cachedData s; isRefreshing := true;
          refreshProgress := refreshProgress s;
          confirmedDomains := confirmedDomains s |})
    end.

End Pipeline.

(** ** Override store and read-time projection *)

(** The rewrite of one domain inside [applyConfirmedOverrides]:
    [d.status === "issue" && confirmedDomains[d.name]]. *)
Definition overrideDomain (confirmed : Store) (d : EDomain.t) : EDomain.t :=
  if String.eqb (EDomain.status d) "issue" then
    if valueTruthy (storeGet confirmed (EDomain.name d)) then
      {| EDomain.name := EDomain.name d;
         EDomain.id := EDomain.id d;
         EDomain.primary := EDomain.primary d;
         EDomain.network_type := EDomain.network_type d;
         EDomain.redirect_to := EDomain.redirect_to d;
         EDomain.isSystem := EDomain.isSystem d;
         EDomain.dns := EDomain.dns d;
         EDomain.status := "confirmed";
         EDomain.detail := "Confirmed OK";
         EDomain.sslStatus := EDomain.sslStatus d;
         EDomain.expectedCname := EDomain.expectedCname d;
         EDomain.expectedARecords := EDomain.expectedARecords d;
         EDomain.originalStatus := Some "issue";
         EDomain.originalDetail := Some (EDomain.detail d);
         EDomain.confirmedAt :=
           valueConfirmedAt (storeGet confirmed (EDomain.name d)) |}
    else d
  else d.

Definition overrideSite (confirmed : Store) (site : Site.t) : Site.t :=
  let domains := overrideDomain confirmed <$> Site.domains site in
  let custom := customOf domains in
  {| Site.name := Site.name site;
     Site.id := Site.id site;
     Site.environment := Site.environment site;
     Site.primary_domain := Site.primary_domain site;
     Site.cname := Site.cname site;
     Site.php_version := Site.php_version site;
     Site.domains := domains;
     Site.issueCount := countStatus "issue" custom;
     Site.pendingCount := Site.pendingCount site;
     Site.confirmedCount := Some (countStatus "confirmed" custom) |}.

(** [applyConfirmedOverrides(data)]; [None] is [null], returned as it is
    (a stored snapshot always has its [sites] array). *)
Definition applyConfirmedOverrides (confirmed : Store)
    (data : option Snapshot.t) : option Snapshot.t :=
  match data with
  | None => None
  | Some data =>
    let sites := overrideSite confirmed <$> Snapshot.sites data in
    let allDomains := s ← sites; Site.domains s in
    let customDomains := customOf allDomains in
    Some {| Snapshot.sites := sites;
            Snapshot.stats :=
              {| Stats.totalSites := Stats.totalSites (Snapshot.stats data);
                 Stats.totalDomains := Stats.totalDomains (Snapshot.stats data);
                 Stats.customDomains := Stats.customDomains (Snapshot.stats data);
                 Stats.good := countStatus "good" customDomains;
                 Stats.issues := countStatus "issue" customDomains;
                 Stats.pending := countStatus "pending" customDomains;
                 Stats.timestamp := Stats.timestamp (Snapshot.stats data);
                 Stats.confirmed := Some (countStatus "confirmed" customDomains) |} |}
  end.

(** The JSON body of [GET /api/data]. *)
Record DataBody := {
  body_sites : list Site.t;
  body_stats : option Stats.t }.

(** [GET /api/data]: the handler reads the process state and writes none
    of it; the state it leaves is returned to make that explicit. *)
Definition get_api_data (s : State) : DataBody * State :=
  match cachedData s with
  | Some _ =>
    match applyConfirmedOverrides (confirmedDomains s) (cachedData s) with
    | Some p => ({| body_sites := Snapshot.sites p;
                    body_stats := Some (Snapshot.stats p) |}, s)
    | None => ({| body_sites := []; body_stats := None |}, s)
    end
  | None => ({| body_sites := []; body_stats := None |}, s)
  end.

(** The answers of [POST] and [DELETE /api/confirm]. *)
Inductive ConfirmResponse :=
| BadRequest (error : string)
| ConfirmOk (domain : string) (confirmed : bool).

Definition setConfirmed (m : Store) (s : State) : State :=
  {| cachedData := cachedData s; isRefreshing := isRefreshing s;
     refreshProgress := refreshProgress s; confirmedDomains := m |}.

(** [POST /api/confirm]; [domain] is [req.body.domain], [now] is
    [new Date().toISOString()].  [saveConfirmed] rewrites [confirmed.json]
    from the mapping; the file is read at start-up only, so the mapping in
    memory is the state of the store. *)
Definition post_confirm (now : string) (domain : option string) (s : State)
  : ConfirmResponse * State :=
  match domain with
  | Some x =>
    if Js.truthy domain
    then (ConfirmOk x true,
          setConfirmed (storeSet (confirmedDomains s) x {| confirmedAt := now |}) s)
    else (BadRequest "domain is required", s)
  | None => (BadRequest "domain is required", s)
  end.

(** [DELETE /api/confirm] *)
Definition delete_confirm (domain : option string) (s : State)
  : ConfirmResponse * State :=
  match domain with
  | Some x =>
    if Js.truthy domain
    then (ConfirmOk x false, setConfirmed (storeDelete (confirmedDomains s) x) s)
    else (BadRequest "domain is required", s)
  | None => (BadRequest "domain is required", s)
  end.

(** ** Single-flight guard of [refreshData]

    Node runs one callback at a time, so a call of [refreshData] is a
    sequence of turns separated by its [await]s.  A call is either running
    the pipeline, polling [isRefreshing], or settled. *)
Inductive Task :=
| Running
| Waiting
| Settledwith (r : Settled (option Snapshot.t)).

Record Sys := {
  vars : State;
  tasks : list Task;
  pipelinesStarted : nat }.

(** The turns of the event loop that touch the guard. *)
Inductive Event :=
| Call                                      (* refreshData() is invoked *)
| PipelineOk (i : nat) (snap : Snapshot.t)  (* the run of call i assigns cachedData and returns *)
| PipelineFail (i : nat) (e : string)       (* the run of call i throws *)
| Tick (i : nat).                           (* the 500 ms interval of call i fires *)

Definition setVars (c : option Snapshot.t) (r : bool) (p : string) (s : State) : State :=
  {| cachedData := c; isRefreshing := r; refreshProgress := p;
     confirmedDomains := confirmedDomains s |}.

Definition step (ev : Event) (σ : Sys) : option Sys :=
  let s := vars σ in
  match ev with
  | Call =>
    if isRefreshing s
    then Some {| vars := s; tasks := tasks σ ++ [Waiting];
                 pipelinesStarted := pipelinesStarted σ |}
    else Some {| vars := setVars (cachedData s) true "Fetching installs..." s;
                 tasks := tasks σ ++ [Running];
                 pipelinesStarted := Datatypes.S (pipelinesStarted σ) |}
  | PipelineOk i snap =>
    match tasks σ !! i with
    | Some Running =>
      Some {| vars := setVars (Some snap) false "" s;
              tasks := <[ i := Settledwith (Fulfilled (Some snap)) ]> (tasks σ);
              pipelinesStarted := pipelinesStarted σ |}
    | _ => None
    end
  | PipelineFail i e =>
    match tasks σ !! i with
    | Some Running =>
      Some {| vars := setVars (cachedData s) false (refreshProgress s) s;
              tasks := <[ i := Settledwith (Rejected e) ]> (tasks σ);
              pipelinesStarted := pipelinesStarted σ |}
    | _ => None
    end
  | Tick i =>
    match tasks σ !! i with
    | Some Waiting =>
      if isRefreshing s then Some σ
      else Some {| vars := s;
                   tasks := <[ i := Settledwith (Fulfilled (cachedData s)) ]> (tasks σ);
                   pipelinesStarted := pipelinesStarted σ |}
    | _ => None
    end
  end.

(** A schedule of turns, run from left to right; [None] when a turn is not
    enabled. *)
Fixpoint run (evs : list Event) (σ : Sys) : option Sys :=
  match evs with
  | [] => Some σ
  | ev :: evs' =>
    match step ev σ with
    | Some σ' => run evs' σ'
    | None => None
    end
  end.

(** The process with no call of [refreshData] made yet. *)
Definition boot (s : State) : Sys :=
  {| vars := s; tasks := []; pipelinesStarted := 0 |}.


Definition isRunning (t : Task) : bool :=
  match t with Running => true | _ => false end.

(** How many calls are running the pipeline. *)
Definition runningCount (l : list Task) : nat :=
  length (filter (fun t => isRunning t = true) l).

(** ** Vocabulary of the specification

    The predicates below follow the words of the specification; the
    theorems compare them with the functions translated from the code. *)

(** The status the provider declares, before it is upper-cased. *)
Definition declaredStatus (d : Api.Domain) : option string :=
  nd ← Api.network_details d;
  ni ← Api.network_info nd;
  Api.status ni.

Definition equalsIgnoreCase (s t : string) : Prop :=
  Js.toUpperCase s = Js.toUpperCase t.

(** "Declared network status is [token] (case-insensitive)". *)
Definition declaredStatusIs (d : Api.Domain) (token : string) : Prop :=
  ∃ st, declaredStatus d = Some st ∧ equalsIgnoreCase st token.

(** The four conditions of the fingerprint match. *)
Definition cnameHasProviderSuffix (r : DNSResult) : Prop :=
  ∃ c s, c ∈ cnames r ∧ s ∈ WPE_CNAME_SUFFIXES ∧ Js.endsWith c s = true.

Definition cnameIsInstallCname (r : DNSResult) (installCname : option string) : Prop :=
  ∃ c, c ∈ cnames r ∧ installCname = Some c.

Definition cnameInIndex (r : DNSResult) (allDomainNames : option (gset string)) : Prop :=
  ∃ c names, c ∈ cnames r ∧ allDomainNames = Some names ∧ c ∈ names.

Definition ipHasProviderPrefix (r : DNSResult) : Prop :=
  ∃ ip p, ip ∈ ips r ∧ p ∈ WPE_IP_PREFIXES ∧ Js.startsWith ip p = true.

(** "Logically an OR" of the four. *)
Definition matchesProviderSpec (r : DNSResult) (installCname : option string)
    (allDomainNames : option (gset string)) : Prop :=
  cnameHasProviderSuffix r ∨ cnameIsInstallCname r installCname
  ∨ cnameInIndex r allDomainNames ∨ ipHasProviderPrefix r.

(** "The resolved A-records intersect the provider's expected A-record
    list". *)
Definition aRecordsIntersect (d : Api.Domain) (dnsResult : option DNSResult) : Prop :=
  ∃ r ip, dnsResult = Some r ∧ ip ∈ ips r ∧ ip ∈ expectedARecords d.

(** "A resolved CNAME equals the provider's expected CNAME". *)
Definition cnameEqualsExpected (d : Api.Domain) (dnsResult : option DNSResult) : Prop :=
  ∃ r c, dnsResult = Some r ∧ c ∈ cnames r ∧ expectedCname d = Some c.

(** The first bullet of the ACTIVE branch. *)
Definition pointedSpec (d : Api.Domain) (dnsResult : option DNSResult)
    (installCname : option string) (allDomainNames : option (gset string)) : Prop :=
  dnsPointsToWPE dnsResult installCname allDomainNames = true
  ∨ aRecordsIntersect d dnsResult ∨ cnameEqualsExpected d dnsResult.

(** "At least one A-record or CNAME was found". *)
Definition foundSomething (r : DNSResult) : Prop :=
  ips r ≠ [] ∨ cnames r ≠ [].

(** A DNSResult carries "a resolved boolean (true if either list is
    non-empty)". *)
Definition resolvedFlagSet (r : DNSResult) : Prop :=
  foundSomething r → resolved r = true.

(** What the domain listing stage yields for a list of installs. *)
Definition domainListing (apiDomains : string -> Settled Api.DomainsPage)
    (installs : list Api.Install) : list (Api.Install * list Api.Domain) :=
  (fun inst => (inst, fetchDomains apiDomains (Api.inst_id inst))) <$> installs.

(** Verdict and reason of domain [j] of site [i] of a snapshot. *)
Definition classificationAt (snap : Snapshot.t) (i j : nat) : option (string * string) :=
  site ← Snapshot.sites snap !! i;
  d ← Site.domains site !! j;
  Some (EDomain.status d, EDomain.detail d).

(** The install listing fails on page [k]: the pages before it were
    fetched and announced a next page, the fetch of page [k] rejects. *)
Definition listingFailsAt (apiInstalls : nat -> Settled Api.InstallsPage)
    (k : nat) (e : string) : Prop :=
  (∀ j, (j < k)%nat →
        ∃ page, apiInstalls (100 * j)%nat = Fulfilled page
                ∧ Js.truthy (Api.next page) = true)
  ∧ apiInstalls (100 * k)%nat = Rejected e.

(** The write to the shared state of the DNS stage that the lookup of one
    domain performs when it settles. *)
Definition dnsWrite (resolve4 resolveCname : string -> option (list string))
    (total : nat) (d : Api.Domain) : DnsStage -> DnsStage :=
  (dnsTask resolve4 resolveCname total d 0 []).2.

(** Domain [j] of site [i] of a projected snapshot. *)
Definition domainAt (p : option Snapshot.t) (i j : nat) : option EDomain.t :=
  snap ← p;
  site ← Snapshot.sites snap !! i;
  Site.domains site !! j.

(** [project]: the projection of the stored snapshot through the override
    store, as [/api/data] and [/api/refresh] compute it. *)
Definition project (s : State) : option Snapshot.t :=
  applyConfirmedOverrides (confirmedDomains s) (cachedData s).

(** The guard and the running calls agree: the flag is up exactly while
    one call runs the pipeline. *)
Definition guardInv (σ : Sys) : Prop :=
  runningCount (tasks σ) = if isRefreshing (vars σ) then 1%nat else 0%nat.



(** ** Concrete inputs used in the examples *)

Definition mkDomain (n i : string) (st : option string) (expCname : option string)
    (expA : option (list string)) : Api.Domain :=
  {| Api.name := n; Api.id := i; Api.primary := false;
     Api.network_type := None; Api.redirect_to := None;
     Api.network_details :=
       Some {| Api.network_info := Some {| Api.status := st; Api.ssl := None |};
               Api.dns_config_info :=
                 Some {| Api.cname := expCname; Api.a_records := expA |} |} |}.

(** A legacy domain: the provider sends no network record at all. *)
Definition legacyDomain (n i : string) : Api.Domain :=
  {| Api.name := n; Api.id := i; Api.primary := false;
     Api.network_type := None; Api.redirect_to := None;
     Api.network_details := None |}.

Definition exInstall : Api.Install :=
  {| Api.inst_name := "shop"; Api.inst_id := "i-1"; Api.environment := "production";
     Api.primary_domain := None; Api.inst_cname := Some "shop.wpengine.com";
     Api.php_version := None |}.

(** A resolver for which every lookup fails. *)
Definition deadResolver : string -> option (list string) := fun _ => None.

(** A resolver whose A-record lookup fulfils with no record. *)
Definition emptyAResolver : string -> option (list string) := fun _ => Some [].

(** The scenarios of the specification: an ACTIVE domain whose A-record is
    the expected one, and a PENDING domain whose DNS answer carries a
    provider address. *)
Definition domainA : Api.Domain :=
  mkDomain "a.example.com" "d-a" (Some "Active") None (Some ["203.0.113.5"]).
Definition resultA : DNSResult :=
  {| ips := ["203.0.113.5"]; cnames := []; resolved := true |}.

Definition domainP : Api.Domain :=
  mkDomain "p.example.com" "d-p" (Some "pending") None None.
Definition resultP : DNSResult :=
  {| ips := ["141.193.213.10"]; cnames := []; resolved := true |}.

(** A per-item callback without effects, as [batchAsync] receives it: the
    value depends on the item alone and the shared state is left alone. *)
Definition pureTask {A B S} (f : A -> B) : A -> nat -> list A -> B * (S -> S) :=
  fun x _ _ => (f x, fun s => s).

(** The scenario of the specification for a legacy domain: one install
    with the single domain [c.example.com], no declared status, and a
    resolver that fails on every lookup. *)
Definition onePageApi (off : nat) : Settled Api.InstallsPage :=
  Fulfilled {| Api.results := Some [exInstall]; Api.next := None |}.
Definition cDomainsApi (installId : string) : Settled Api.DomainsPage :=
  Fulfilled {| Api.dom_results := Some [legacyDomain "c.example.com" "d-c"] |}.

(** An API whose second page of installs answers with an error. *)
Definition brokenApi (off : nat) : Settled Api.InstallsPage :=
  match off with
  | 0 => Fulfilled {| Api.results := Some [exInstall]; Api.next := Some "/installs?offset=100" |}
  | _ => Rejected "API 502 on /installs?limit=100&offset=100"
  end.

Definition emptyState : State :=
  {| cachedData := None; isRefreshing := false; refreshProgress := "";
     confirmedDomains := ∅ |}.

(** A stored snapshot with one custom domain classified "issue". *)
Definition issueDomain (n : string) : EDomain.t :=
  {| EDomain.name := n; EDomain.id := "d-b"; EDomain.primary := false;
     EDomain.network_type := ""; EDomain.redirect_to := None;
     EDomain.isSystem := false;
     EDomain.dns := Some {| ips := []; cnames := ["cdn.unrelated.net"];
                            resolved := true |};
     EDomain.status := "issue"; EDomain.detail := "DNS not pointed to WPE";
     EDomain.sslStatus := None; EDomain.expectedCname := None;
     EDomain.expectedARecords := [];
     EDomain.originalStatus := None; EDomain.originalDetail := None;
     EDomain.confirmedAt := None |}.

Definition snapshotOf (d : EDomain.t) : Snapshot.t :=
  {| Snapshot.sites :=
       [ {| Site.name := "shop"; Site.id := "i-1"; Site.environment := "production";
            Site.primary_domain := None; Site.cname := Some "shop.wpengine.com";
            Site.php_version := None; Site.domains := [d];
            Site.issueCount := 1; Site.pendingCount := 0;
            Site.confirmedCount := None |} ];
     Snapshot.stats :=
       {| Stats.totalSites := 1; Stats.totalDomains := 1; Stats.customDomains := 1;
          Stats.good := 0; Stats.issues := 1; Stats.pending := 0;
          Stats.timestamp := "2024-01-01T00:00:00.000Z";
          Stats.confirmed := None |} |}.

Definition servingState (d : EDomain.t) : State :=
  {| cachedData := Some (snapshotOf d); isRefreshing := false;
     refreshProgress := ""; confirmedDomains := ∅ |}.

(** ** Further handlers of [server.js] *)

(** The body of [GET /api/status]. *)
Record StatusBody := {
  refreshing : bool;
  progress_message : string;
  hasData : bool }.

Definition get_api_status (s : State) : StatusBody :=
  {| refreshing := isRefreshing s;
     progress_message := refreshProgress s;
     hasData := match cachedData s with Some _ => true | None => false end |}.

(** The answers of [GET /api/refresh]: the projected result of
    [refreshData], or status 500 with the message of the error. *)
Inductive RefreshResponse :=
| RefreshJson (body : option Snapshot.t)
| RefreshError (error : string)
| RefreshUnsettled.

Definition get_api_refresh (apiInstalls : nat -> Settled Api.InstallsPage)
    (apiDomains : string -> Settled Api.DomainsPage)
    (resolve4 resolveCname : string -> option (list string))
    (completion : list (DnsStage -> DnsStage) -> list (DnsStage -> DnsStage))
    (now : string) (fuel : nat) (s : State) : RefreshResponse * State :=
  match refreshData apiInstalls apiDomains resolve4 resolveCname completion
                    now fuel s with
  | (Ok data, s') =>
    (RefreshJson (applyConfirmedOverrides (confirmedDomains s') (Some data)), s')
  | (Throw e, s') => (RefreshError e, s')
  | (OutOfFuel, s') => (RefreshUnsettled, s')
  end.

(** ** The script of the dashboard page *)

Module Page.

(** [s.replace(/c/g, rep)] for a one-character pattern. *)
Fixpoint replaceAll (c : ascii) (rep : string) (s : string) : string :=
  match s with
  | EmptyString => EmptyString
  | String a s' =>
    (if Ascii.eqb a c then rep else String a EmptyString) +:+ replaceAll c rep s'
  end.

(** [esc(s)] *)
Definition esc (s : option string) : string :=
  match s with
  | Some x =>
    if Js.truthy s
    then replaceAll ">" "&gt;" (replaceAll "<" "&lt;" (replaceAll "&" "&amp;" x))
    else ""
  | None => ""
  end.

Definition lower_ascii (c : ascii) : ascii :=
  let n := nat_of_ascii c in
  if (65 <=? n)%nat && (n <=? 90)%nat then ascii_of_nat (n + 32) else c.

(** [s.toLowerCase()] on ASCII text. *)
Fixpoint toLowerCase (s : string) : string :=
  match s with
  | EmptyString => EmptyString
  | String c s' => String (lower_ascii c) (toLowerCase s')
  end.

(** [s.includes(q)]: [q] starts at some position of [s]. *)
Fixpoint includes (s q : string) : bool :=
  if String.prefix q s then true
  else match s with
       | EmptyString => false
       | String _ s' => includes s' q
       end.

(** [site.confirmedCount || 0] *)
Definition confirmedOrZero (site : Site.t) : nat :=
  default 0%nat (Site.confirmedCount site).

(** The predicate [renderSites] filters [DATA] with; [currentFilter] is
    the filter button, [currentSearch] the text of the search box. *)
Definition siteShown (currentFilter currentSearch : string) (site : Site.t) : bool :=
  let q := toLowerCase currentSearch in
  if negb (String.eqb q "")
     && (negb (includes (toLowerCase (Site.name site)) q)
         && negb (includes (toLowerCase (Js.or_else (Site.primary_domain site) "")) q)
         && negb (Js.some (fun d => includes (toLowerCase (EDomain.name d)) q)
                          (Site.domains site)))
  then false
  else if String.eqb currentFilter "all" then true
  else if String.eqb currentFilter "issues" then (0 <? Site.issueCount site)%nat
  else if String.eqb currentFilter "confirmed" then (0 <? confirmedOrZero site)%nat
  else (Site.issueCount site =? 0)%nat && (confirmedOrZero site =? 0)%nat.

End Page.

(** ** Vocabulary for the further properties *)

(** The listing of the installs succeeds and the fuel covers the two
    fan-out stages (one loop turn per item is always enough). *)
Definition listingOk (apiInstalls : nat -> Settled Api.InstallsPage)
    (apiDomains : string -> Settled Api.DomainsPage) (fuel : nat)
    (installs : list Api.Install) : Prop :=
  fetchAllInstalls apiInstalls fuel = Ok installs
  ∧ (length installs ≤ fuel)%nat
  ∧ (length (collectCustomDomains (domainListing apiDomains installs)) ≤ fuel)%nat.

(** The verdicts the classifier can give. *)
Definition classifierStatuses : list string :=
  ["system"; "good"; "issue"; "pending"; "unknown"].

(** The sum of a list of counts. *)
Definition sumCounts (l : list nat) : nat := foldr Nat.add 0%nat l.

(** All the domains of a snapshot, site after site. *)
Definition allDomainsOf (snap : Snapshot.t) : list EDomain.t :=
  site ← Snapshot.sites snap; Site.domains site.

(** No successful completion of a run in a schedule. *)
Definition noPipelineOk (evs : list Event) : Prop :=
  forallb (fun ev => match ev with PipelineOk _ _ => false | _ => true end) evs = true.

(** An account for the examples: two installs on two pages; the first has
    a system domain, a custom domain pointed at a provider address and a
    custom domain that is a CNAME of the former; the domain listing of the
    second install fails. *)
Definition installA : Api.Install :=
  {| Api.inst_name := "shop"; Api.inst_id := "i-a"; Api.environment := "production";
     Api.primary_domain := Some "a.example.com";
     Api.inst_cname := Some "shop.wpengine.com"; Api.php_version := Some "8.2" |}.
Definition installB : Api.Install :=
  {| Api.inst_name := "blog"; Api.inst_id := "i-b"; Api.environment := "staging";
     Api.primary_domain := None; Api.inst_cname := Some "blog.wpengine.com";
     Api.php_version := None |}.

Definition twoPageApi (off : nat) : Settled Api.InstallsPage :=
  match off with
  | 0 => Fulfilled {| Api.results := Some [installA];
                      Api.next := Some "/installs?limit=100&offset=100" |}
  | _ => Fulfilled {| Api.results := Some [installB]; Api.next := None |}
  end.

Definition accountDomainsApi (installId : string) : Settled Api.DomainsPage :=
  if String.eqb installId "i-a"
  then Fulfilled {| Api.dom_results :=
         Some [ mkDomain "shop.wpengine.com" "d-s" (Some "ACTIVE") None None;
                mkDomain "a.example.com" "d-a" (Some "ACTIVE") None None;
                mkDomain "www.a.example.com" "d-w" (Some "active") None None ] |}
  else Rejected "API 500 on /installs/i-b/domains?limit=100".

Definition accountResolve4 (n : string) : option (list string) :=
  if String.eqb n "a.example.com" then Some ["141.193.213.10"] else None.
Definition accountResolveCname (n : string) : option (list string) :=
  if String.eqb n "www.a.example.com" then Some ["a.example.com"] else None.

(** * Properties *)

(** ** String primitives *)

Lemma endsWith_app (pre suf : string) : Js.endsWith (pre +:+ suf) suf = true.
Proof.
  induction pre as [|c pre IH].
  - change ("" +:+ suf) with suf. destruct suf; cbn [Js.endsWith]; by rewrite String.eqb_refl.
  - change (String c pre +:+ suf) with (String c (pre +:+ suf)).
    cbn [Js.endsWith]. rewrite IH. by case (String.eqb (String c (pre +:+ suf)) suf).
Qed.

Lemma endsWith_spec (s suf : string) :
  Js.endsWith s suf = true ↔ ∃ pre, s = pre +:+ suf.
Proof.
  split.
  - induction s as [|c s IH]; cbn [Js.endsWith].
    + destruct (String.eqb_spec "" suf) as [<-|]; [by exists ""|done].
    + destruct (String.eqb_spec (String c s) suf) as [<-|_]; [by exists ""|].
      intros [pre ->]%IH. by exists (String c pre).
  - intros [pre ->]. apply endsWith_app.
Qed.

Lemma startsWith_spec (s p : string) :
  Js.startsWith s p = true ↔ ∃ rest, s = p +:+ rest.
Proof.
  unfold Js.startsWith. revert s.
  induction p as [|c p IH]; intros s; simpl.
  - split; [by exists s|by destruct s].
  - destruct s as [|c' s]; simpl.
    + split; [done|by intros [? ?]].
    + destruct (ascii_dec c c') as [->|Hne]; simpl.
      * rewrite IH. split; intros [rest H]; exists rest; [by subst|].
        change (String c' p +:+ rest) with (String c' (p +:+ rest)) in H. congruence.
      * split; [done|]. intros [rest H].
        change (String c p +:+ rest) with (String c (p +:+ rest)) in H. congruence.
Qed.

Lemma some_true {A} (p : A -> bool) (l : list A) :
  Js.some p l = true ↔ ∃ x, x ∈ l ∧ p x = true.
Proof.
  unfold Js.some. rewrite existsb_exists.
  split; intros (x & H1 & H2); exists x; split; auto; by apply list_elem_of_In.
Qed.

Lemma includes_true (l : list string) (x : string) :
  Js.includes l x = true ↔ x ∈ l.
Proof.
  unfold Js.includes. rewrite existsb_exists. split.
  - intros (y & Hy & ->%String.eqb_eq). by apply list_elem_of_In.
  - intros H. exists x. split; [by apply list_elem_of_In|apply String.eqb_refl].
Qed.

(** The [length > 0] tests in front of a [some] are redundant. *)
Lemma nonempty_and_some {A} (p : A -> bool) (l : list A) :
  (0 <? length l)%nat && Js.some p l = Js.some p l.
Proof. by destruct l. Qed.

Lemma strictEq_true (o : option string) (s : string) :
  Js.strictEq o s = true ↔ o = Some s.
Proof.
  destruct o as [s'|]; simpl; [|done].
  rewrite String.eqb_eq. split; congruence.
Qed.

Lemma or_null_Some (o : option string) (s : string) :
  Js.or_null o = Some s → Js.truthy (Js.or_null o) = true.
Proof. unfold Js.or_null. destruct (Js.truthy o) eqn:E; [by rewrite E|done]. Qed.

(** ** DNS verifier *)

Lemma dnsLookup_ips r4 rc d : ips (dnsLookup r4 rc d) = default [] (r4 d).
Proof. unfold dnsLookup. by destruct (r4 d), (rc d). Qed.

Lemma dnsLookup_cnames r4 rc d : cnames (dnsLookup r4 rc d) = default [] (rc d).
Proof. unfold dnsLookup. by destruct (r4 d), (rc d). Qed.

(** What the flag of a lookup records: the A-record lookup fulfilled, or
    the CNAME lookup fulfilled with at least one record. *)
Lemma dnsLookup_resolved r4 rc d :
  resolved (dnsLookup r4 rc d) = true ↔
  is_Some (r4 d) ∨ ∃ l, rc d = Some l ∧ l ≠ [].
Proof.
  unfold dnsLookup.
  destruct (r4 d) as [a|], (rc d) as [l|]; simpl.
  - split; [intros _; left; by eexists|done].
  - split; [intros _; left; by eexists|done].
  - destruct l as [|c l]; simpl; split; try done.
    + intros [[? ?]|(? & ? & ?)]; congruence.
    + intros _. right. by eexists.
  - split; [done|]. intros [[? ?]|(? & ? & ?)]; congruence.
Qed.

(** Every result of a lookup has its flag set when a list is non-empty. *)
Lemma dnsLookup_found_resolved r4 rc d :
  foundSomething (dnsLookup r4 rc d) → resolved (dnsLookup r4 rc d) = true.
Proof.
  unfold foundSomething. rewrite dnsLookup_ips, dnsLookup_cnames, dnsLookup_resolved.
  destruct (r4 d) as [a|]; [left; by eexists|].
  destruct (rc d) as [l|]; simpl; [|intros [?|?]; done].
  intros [?|?]; [done|]. right. by exists l.
Qed.

(** When the A-record lookup never fulfils with an empty list, the flag is
    exactly "something was found". *)
Lemma dnsLookup_resolved_iff_found r4 rc d :
  r4 d ≠ Some [] →
  resolved (dnsLookup r4 rc d) = true ↔ foundSomething (dnsLookup r4 rc d).
Proof.
  intros Hne. split; [|apply dnsLookup_found_resolved].
  unfold foundSomething. rewrite dnsLookup_ips, dnsLookup_cnames, dnsLookup_resolved.
  intros [[a Ha]|(l & Hl & Hnil)].
  - left. rewrite Ha. simpl. congruence.
  - right. by rewrite Hl.
Qed.

(** C9: the flag after an A-record lookup that fulfils with no record.
    [dnsLookup] sets [resolved] as soon as [resolve4] fulfils, without looking
    at the length of the list (the CNAME half does look at it), so the
    result is marked resolved although neither list holds a record. *)
Theorem dnsLookup_empty_A_marked_resolved :
  let r := dnsLookup emptyAResolver deadResolver "c.example.com" in
  r = {| ips := []; cnames := []; resolved := true |}
  ∧ ¬ (resolved r = true ↔ foundSomething r).
Proof.
  split; [reflexivity|].
  intros [H _]. destruct (H eq_refl) as [?|?]; done.
Qed.

Lemma suffix_or_install_true (r : DNSResult) (ic : option string) :
  Js.some (fun c => Js.some (fun s => Js.endsWith c s) WPE_CNAME_SUFFIXES
                    || Js.strictEq ic c) (cnames r) = true
  ↔ cnameHasProviderSuffix r ∨ cnameIsInstallCname r ic.
Proof.
  rewrite some_true. split.
  - intros (c & Hc & [H|H]%orb_true_iff).
    + left. apply some_true in H as (s & Hs & H). by exists c, s.
    + right. apply strictEq_true in H. by exists c.
  - intros [(c & s & Hc & Hs & H)|(c & Hc & H)]; exists c; split; auto;
      apply orb_true_iff.
    + left. apply some_true. by exists s.
    + right. by apply strictEq_true.
Qed.

Lemma index_true (r : DNSResult) (idx : option (gset string)) :
  match idx with
  | Some names => Js.some (fun c => bool_decide (c ∈ names)) (cnames r)
  | None => false
  end = true ↔ cnameInIndex r idx.
Proof.
  destruct idx as [names|].
  - rewrite some_true. split.
    + intros (c & Hc & H%bool_decide_eq_true). by exists c, names.
    + intros (c & names' & Hc & [= <-] & H). exists c. split; auto.
      by apply bool_decide_eq_true.
  - split; [done|]. by intros (? & ? & ? & ? & ?).
Qed.

Lemma prefix_true (r : DNSResult) :
  Js.some (fun ip => Js.some (fun p => Js.startsWith ip p) WPE_IP_PREFIXES) (ips r) = true
  ↔ ipHasProviderPrefix r.
Proof.
  rewrite some_true. split.
  - intros (ip & Hip & (p & Hp & H)%some_true). by exists ip, p.
  - intros (ip & p & Hip & Hp & H). exists ip. split; auto.
    apply some_true. by exists p.
Qed.

(** The cascade of early returns of [dnsPointsToWPE] as one boolean
    expression. *)
Lemma dnsPointsToWPE_bool (r : DNSResult) (ic : option string)
    (idx : option (gset string)) :
  dnsPointsToWPE (Some r) ic idx =
  resolved r
  && (Js.some (fun c => Js.some (fun s => Js.endsWith c s) WPE_CNAME_SUFFIXES
                        || Js.strictEq ic c) (cnames r)
      || match idx with
         | Some names => Js.some (fun c => bool_decide (c ∈ names)) (cnames r)
         | None => false
         end
      || Js.some (fun ip => Js.some (fun p => Js.startsWith ip p) WPE_IP_PREFIXES) (ips r)).
Proof.
  unfold dnsPointsToWPE. destruct (resolved r); simpl; [|done].
  rewrite !nonempty_and_some.
  destruct (Js.some _ (cnames r)); simpl; [done|].
  destruct idx as [names|].
  - rewrite nonempty_and_some.
    destruct (Js.some _ (cnames r)); simpl; [done|].
    by destruct (Js.some _ (ips r)).
  - rewrite andb_false_r. simpl. by destruct (Js.some _ (ips r)).
Qed.

(** On any record, the fingerprint match is the OR of the four conditions
    behind the guard on the [resolved] flag: it returns [true] exactly
    when the flag is set and one of the conditions holds. *)
Lemma dnsPointsToWPE_iff (r : DNSResult) (installCname : option string)
    (allDomainNames : option (gset string)) :
  dnsPointsToWPE (Some r) installCname allDomainNames = true
  ↔ resolved r = true ∧ matchesProviderSpec r installCname allDomainNames.
Proof.
  rewrite dnsPointsToWPE_bool, andb_true_iff, !orb_true_iff.
  rewrite suffix_or_install_true, index_true, prefix_true.
  unfold matchesProviderSpec. tauto.
Qed.

(** A condition that holds lists a record. *)
Lemma matchesProviderSpec_found (r : DNSResult) (installCname : option string)
    (allDomainNames : option (gset string)) :
  matchesProviderSpec r installCname allDomainNames → foundSomething r.
Proof.
  intros [(c & ? & Hc & _)|[(c & Hc & _)|[(c & ? & Hc & _)|(ip & ? & Hip & _)]]];
    [right|right|right|left]; intros E; rewrite E in *;
    by apply not_elem_of_nil in Hc || by apply not_elem_of_nil in Hip.
Qed.

(** For the results [dnsLookup] produces, whose flag is set whenever a list
    is non-empty, the guard is invisible: the match is the plain OR. *)
Lemma dnsPointsToWPE_iff_lookup r4 rc d installCname allDomainNames :
  let r := dnsLookup r4 rc d in
  dnsPointsToWPE (Some r) installCname allDomainNames = true
  ↔ matchesProviderSpec r installCname allDomainNames.
Proof.
  intros r. rewrite dnsPointsToWPE_iff.
  split; [by intros [_ ?]|]. intros H. split; [|done].
  apply dnsLookup_found_resolved. fold r. by eapply matchesProviderSpec_found.
Qed.

(** C8: for every DNSResult, a record whose [resolved] flag is set
    whenever one of its lists is non-empty, and every install CNAME and
    index, the fingerprint match returns [true] exactly when one of the
    four conditions holds: a CNAME with a provider suffix, a CNAME equal to
    the install's CNAME, a CNAME in the index, or an A-record with a
    provider prefix.  The order of the tests and the early returns do not
    show in the result. *)
Theorem dnsPointsToWPE_plain_or (r : DNSResult) (installCname : option string)
    (allDomainNames : option (gset string)) :
  resolvedFlagSet r →
  dnsPointsToWPE (Some r) installCname allDomainNames = true
  ↔ matchesProviderSpec r installCname allDomainNames.
Proof.
  intros Hflag. rewrite dnsPointsToWPE_bool, andb_true_iff, !orb_true_iff.
  rewrite suffix_or_install_true, index_true, prefix_true.
  split.
  - intros [_ H]. unfold matchesProviderSpec. tauto.
  - intros H. split.
    + apply Hflag. by eapply matchesProviderSpec_found.
    + unfold matchesProviderSpec in H. tauto.
Qed.

Lemma dnsPointsToWPE_plain_or_witness :
  let r := {| ips := ["141.193.213.10"]; cnames := ["shop.wpengine.com"];
              resolved := true |} in
  dnsPointsToWPE (Some r) None None = true ↔ matchesProviderSpec r None None.
Proof.
  apply (dnsPointsToWPE_plain_or
           {| ips := ["141.193.213.10"]; cnames := ["shop.wpengine.com"];
              resolved := true |} None None).
  intros _. reflexivity.
Defined.

(** Every result of a lookup is such a record. *)
Lemma dnsLookup_resolvedFlagSet
    (resolve4 resolveCname : string -> option (list string)) (domain : string) :
  resolvedFlagSet (dnsLookup resolve4 resolveCname domain).
Proof. intros H. by apply dnsLookup_found_resolved. Qed.

(** The guard on the flag decides only on a record that lists a CNAME
    with a provider suffix and yet is not marked resolved, which no lookup
    returns. *)
Lemma dnsPointsToWPE_guard_unmarked_record :
  let r := {| ips := []; cnames := ["shop.wpengine.com"]; resolved := false |} in
  ¬ resolvedFlagSet r
  ∧ dnsPointsToWPE (Some r) None None = false
  ∧ matchesProviderSpec r None None
  ∧ ∀ resolve4 resolveCname domain, dnsLookup resolve4 resolveCname domain ≠ r.
Proof.
  cbv zeta. split; [|split; [reflexivity|split]].
  - intros H. enough (false = true) by done. apply H. by right.
  - left. exists "shop.wpengine.com", ".wpengine.com".
    split; [apply elem_of_cons; by left|].
    split; [unfold WPE_CNAME_SUFFIXES; apply elem_of_cons; by left|reflexivity].
  - intros r4 rc d E.
    pose proof (dnsLookup_resolvedFlagSet r4 rc d) as H. rewrite E in H.
    enough (false = true) by done. apply H. by right.
Qed.

(** ** Status classifier *)

Lemma networkStatus_declared (d : Api.Domain) :
  networkStatus d = Js.toUpperCase <$> declaredStatus d.
Proof.
  unfold networkStatus, declaredStatus.
  destruct (Api.network_details d) as [nd|]; simpl; [|done].
  destruct (Api.network_info nd) as [ni|]; simpl; [|done].
  by destruct (Api.status ni).
Qed.

Lemma declaredStatusIs_networkStatus (d : Api.Domain) (token : string) :
  declaredStatusIs d token → networkStatus d = Some (Js.toUpperCase token).
Proof.
  intros (st & Hst & Heq). rewrite networkStatus_declared, Hst. simpl.
  by rewrite Heq.
Qed.

Lemma dnsMatchesExpected_true (d : Api.Domain) (dnsResult : option DNSResult) :
  dnsMatchesExpected d dnsResult = true ↔ aRecordsIntersect d dnsResult.
Proof.
  unfold dnsMatchesExpected, aRecordsIntersect.
  destruct dnsResult as [r|]; [|split; [done|by intros (? & ? & ? & _)]].
  split.
  - destruct (_ && _); [|done].
    intros (ip & Hip & H%includes_true)%some_true. by exists r, ip.
  - intros (r' & ip & [= <-] & Hip & Hexp).
    destruct (ips r) as [|i l] eqn:Ei; [by apply not_elem_of_nil in Hip|].
    destruct (expectedARecords d) as [|e l'] eqn:Ee; [by apply not_elem_of_nil in Hexp|].
    simpl ((0 <? _)%nat && _). cbv iota.
    apply some_true. exists ip. split; [done|]. by apply includes_true.
Qed.

Lemma cnameMatchesExpected_true (d : Api.Domain) (dnsResult : option DNSResult) :
  cnameMatchesExpected d dnsResult = true ↔ cnameEqualsExpected d dnsResult.
Proof.
  unfold cnameMatchesExpected, cnameEqualsExpected.
  destruct dnsResult as [r|]; [|split; [done|by intros (? & ? & ? & _)]].
  split.
  - destruct (_ && _); [|done].
    intros (c & Hc & H%strictEq_true)%some_true. by exists r, c.
  - intros (r' & c & [= <-] & Hc & Hexp).
    destruct (cnames r) as [|c0 l] eqn:Ec; [by apply not_elem_of_nil in Hc|].
    unfold expectedCname in *. rewrite (or_null_Some _ _ Hexp).
    simpl ((0 <? _)%nat && _). cbv iota.
    apply some_true. exists c. split; [done|]. by apply strictEq_true.
Qed.

Lemma pointed_true d dnsResult installCname allDomainNames :
  dnsPointsToWPE dnsResult installCname allDomainNames
  || dnsMatchesExpected d dnsResult || cnameMatchesExpected d dnsResult = true
  ↔ pointedSpec d dnsResult installCname allDomainNames.
Proof.
  rewrite !orb_true_iff, dnsMatchesExpected_true, cnameMatchesExpected_true.
  unfold pointedSpec. tauto.
Qed.

(** C1: the ACTIVE branch of the classifier.  For a custom domain whose
    declared status is ACTIVE in any letter case: "Active & DNS pointed"
    when the fingerprint matches, or a resolved A-record is one of the
    expected A-records, or a resolved CNAME is the expected CNAME;
    otherwise "DNS not pointed to WPE" for a DNS result that resolved,
    "DNS not resolving" for one that did not, and "Active (API)" when there
    is no DNS result. *)
Theorem classify_active (d : Api.Domain) (dnsResult : option DNSResult)
    (installCname : option string) (allDomainNames : option (gset string)) :
  isSystemName (Api.name d) = false →
  declaredStatusIs d "ACTIVE" →
  let verdict := determineDomainStatus d dnsResult installCname allDomainNames in
  let pointed := pointedSpec d dnsResult installCname allDomainNames in
  (pointed → verdict = {| status := "good"; detail := "Active & DNS pointed" |})
  ∧ (¬ pointed → ∀ r, dnsResult = Some r → resolved r = true →
       verdict = {| status := "issue"; detail := "DNS not pointed to WPE" |})
  ∧ (¬ pointed → ∀ r, dnsResult = Some r → resolved r = false →
       verdict = {| status := "issue"; detail := "DNS not resolving" |})
  ∧ (dnsResult = None →
       verdict = {| status := "good"; detail := "Active (API)" |}).
Proof.
  intros Hsys Hact verdict pointed. subst verdict pointed.
  unfold determineDomainStatus.
  rewrite Hsys, (declaredStatusIs_networkStatus _ _ Hact).
  change (Js.strictEq (Some (Js.toUpperCase "ACTIVE")) "ACTIVE") with true.
  cbv iota.
  pose proof (pointed_true d dnsResult installCname allDomainNames) as Hp.
  destruct (_ || _ || _) eqn:E.
  - split; [done|]. destruct Hp as [Hp _]. specialize (Hp eq_refl).
    repeat split; try (intros; done).
    intros ->. destruct Hp as [H|[(? & ? & ? & _)|(? & ? & ? & _)]]; done.
  - assert (¬ pointedSpec d dnsResult installCname allDomainNames) as Hn
      by (intros H%Hp; done).
    split; [done|]. split; [|split].
    + intros _ r -> Hr. simpl. by rewrite Hr.
    + intros _ r -> Hr. simpl. by rewrite Hr.
    + by intros ->.
Qed.

Lemma classify_active_witness :
  determineDomainStatus domainA (Some resultA) None None
  = {| status := "good"; detail := "Active & DNS pointed" |}.
Proof.
  apply (classify_active domainA (Some resultA) None None).
  - reflexivity.
  - exists "Active". split; reflexivity.
  - right. left. exists resultA, "203.0.113.5".
    split; [reflexivity|]. split; apply list_elem_of_In; simpl; auto.
Defined.

(** C3: a custom domain whose declared status is PENDING, in any letter
    case, is classified "pending" / "Pending setup" whatever the DNS
    result is, present or absent, matching the provider or not. *)
Theorem classify_pending (d : Api.Domain) (dnsResult : option DNSResult)
    (installCname : option string) (allDomainNames : option (gset string)) :
  isSystemName (Api.name d) = false →
  declaredStatusIs d "PENDING" →
  determineDomainStatus d dnsResult installCname allDomainNames
  = {| status := "pending"; detail := "Pending setup" |}.
Proof.
  intros Hsys Hp. unfold determineDomainStatus.
  rewrite Hsys, (declaredStatusIs_networkStatus _ _ Hp). reflexivity.
Qed.

(** A PENDING domain with a DNS answer that matches the provider. *)
Lemma classify_pending_witness :
  dnsPointsToWPE (Some resultP) None None = true
  ∧ determineDomainStatus domainP (Some resultP) None None
    = {| status := "pending"; detail := "Pending setup" |}.
Proof.
  split; [reflexivity|].
  apply (classify_pending domainP (Some resultP) None None).
  - reflexivity.
  - exists "pending". split; reflexivity.
Defined.

(** ** Bounded-concurrency helper *)

Section BatchAsyncFacts.
Context {A B S : Type}.
Variable fn : A -> nat -> list A -> B * (S -> S).
Variable f : A -> B.
Variable g : A -> S -> S.
Variable completion : list (S -> S) -> list (S -> S).
Variable concurrency : nat.

(** The callback looks at its item only. *)
Hypothesis fn_per_item : ∀ x k batch, fn x k batch = (f x, g x).
(** The promises of a batch settle in some order, each once. *)
Hypothesis completion_perm : ∀ l, completion l ≡ₚ l.
Hypothesis concurrency_pos : (1 ≤ concurrency)%nat.

(** Loop invariant: from index [i] on, the loop appends the values of the
    remaining items in input order, and runs their effects batch by
    batch in completion order. *)
Lemma batchAsync_loop_spec (fuel : nat) (items : list A) :
  ∀ (i : nat) (results : list B) (st : S),
    (length items - i ≤ fuel)%nat →
    ∃ effs, effs ≡ₚ g <$> drop i items
      ∧ batchAsync_loop fn completion fuel items concurrency i results st
        = Ok ((results ++ (f <$> drop i items))%list,
              foldl (fun s eff => eff s) st effs).
Proof.
  induction fuel as [|fuel IH]; intros i results st Hfuel.
  - exists []. assert (length items ≤ i)%nat as Hi by lia.
    rewrite (drop_ge _ _ Hi). split; [done|]. simpl.
    destruct (Nat.ltb_spec i (length items)); [lia|]. simpl.
    by rewrite app_nil_r.
  - cbn [batchAsync_loop].
    destruct (Nat.ltb_spec i (length items)) as [Hlt|Hge]; simpl negb; cbv iota.
    + unfold slice. replace (i + concurrency - i) with concurrency by lia.
      set (batch := take concurrency (drop i items)).
      assert (imap (fun k x => fn x k batch) batch
              = (fun x => (f x, g x)) <$> batch) as ->.
      { rewrite <- imap_const. apply imap_ext. intros. apply fn_per_item. }
      rewrite <- !list_fmap_compose.
      change (fst ∘ (fun x => (f x, g x))) with f.
      change (snd ∘ (fun x => (f x, g x))) with g.
      destruct (IH (i + concurrency) (results ++ (f <$> batch))%list
                   (foldl (fun s eff => eff s) st (completion (g <$> batch))))
        as (effs & Hperm & ->); [lia|].
      exists (completion (g <$> batch) ++ effs)%list.
      assert (drop i items = batch ++ drop (i + concurrency) items)%list as Hsplit.
      { unfold batch. rewrite <- drop_drop. by rewrite take_drop. }
      split.
      * rewrite Hsplit, fmap_app, completion_perm, Hperm. done.
      * rewrite foldl_app, <- app_assoc, <- fmap_app, <- Hsplit. done.
    + exists []. rewrite (drop_ge _ _ Hge). split; [done|]. simpl.
      by rewrite app_nil_r.
Qed.

Lemma batchAsync_spec (fuel : nat) (items : list A) (st : S) :
  (length items ≤ fuel)%nat →
  ∃ effs, effs ≡ₚ g <$> items
    ∧ batchAsync fn completion fuel items concurrency st
      = Ok (f <$> items, foldl (fun s eff => eff s) st effs).
Proof.
  intros Hfuel. unfold batchAsync.
  destruct (batchAsync_loop_spec fuel items 0 [] st) as (effs & Hp & Heq); [lia|].
  exists effs. by rewrite drop_0 in *.
Qed.

End BatchAsyncFacts.

Lemma foldl_identity_effects {S} (effs : list (S -> S)) (st : S) :
  (∀ e, e ∈ effs → e = fun s => s) → foldl (fun s eff => eff s) st effs = st.
Proof.
  induction effs as [|e effs IH]; intros H; simpl; [done|].
  rewrite (H e) by set_solver. apply IH. intros. apply H. set_solver.
Qed.

(** C10: for a concurrency bound of at least one and a per-item callback
    without effects, [batchAsync] returns the callback applied to each item
    in input order, exactly what a sequential map returns, whatever the
    bound and whatever the order in which the promises of a batch settle
    (the fuel only has to cover one loop turn per item). *)
Theorem batchAsync_is_map {A B S} (fn : A -> nat -> list A -> B * (S -> S))
    (f : A -> B) (completion : list (S -> S) -> list (S -> S))
    (items : list A) (n fuel : nat) (st : S) :
  (1 ≤ n)%nat →
  (∀ x k batch, fn x k batch = pureTask f x k batch) →
  (∀ l, completion l ≡ₚ l) →
  (length items ≤ fuel)%nat →
  batchAsync fn completion fuel items n st = Ok (map f items, st).
Proof.
  intros Hn Hfn Hperm Hfuel.
  destruct (batchAsync_spec fn f (fun _ s => s) completion n Hfn Hperm Hn
                            fuel items st Hfuel) as (effs & Hp & ->).
  rewrite foldl_identity_effects; [done|].
  intros e He. rewrite Hp in He. by apply list_elem_of_fmap in He as (? & -> & _).
Qed.

(** Seven items in batches of three, the promises of each batch settling
    in reverse order. *)
Lemma batchAsync_is_map_witness :
  batchAsync (pureTask (S:=unit) (fun x => x * x)) (@rev _) 7 [1; 2; 3; 4; 5; 6; 7] 3 tt
  = Ok ([1; 4; 9; 16; 25; 36; 49], tt).
Proof.
  apply (batchAsync_is_map (pureTask (fun x => x * x)) (fun x => x * x) (@rev _)
                           [1; 2; 3; 4; 5; 6; 7] 3 7 tt).
  - lia.
  - reflexivity.
  - intros l. symmetry. apply Permutation_rev.
  - simpl. lia.
Defined.

(** ** Refresh pipeline *)

Lemma fetchAllInstalls_loop_throws apiInstalls (k : nat) :
  ∀ (fuel : nat) (all : list Api.Install) (offset : nat) (e : string),
    (∀ j, (j < k)%nat →
          ∃ page, apiInstalls (offset + 100 * j)%nat = Fulfilled page
                  ∧ Js.truthy (Api.next page) = true) →
    apiInstalls (offset + 100 * k)%nat = Rejected e →
    (k < fuel)%nat →
    fetchAllInstalls_loop apiInstalls fuel all offset = Throw e.
Proof.
  induction k as [|k IH]; intros fuel all offset e Hpages Hfail Hfuel;
    (destruct fuel as [|fuel]; [lia|]); cbn [fetchAllInstalls_loop].
  - replace (offset + 100 * 0)%nat with offset in Hfail by lia. by rewrite Hfail.
  - destruct (Hpages 0%nat) as (page & Hpage & Hnext); [lia|].
    replace (offset + 100 * 0)%nat with offset in Hpage by lia.
    rewrite Hpage, Hnext. simpl negb. cbv iota.
    apply IH; [|by replace (offset + 100 + 100 * k)%nat
                      with (offset + 100 * S k)%nat by lia|lia].
    intros j Hj. destruct (Hpages (S j)) as (pg & Hpg & Hn); [lia|].
    exists pg. split; [|done].
    by replace (offset + 100 + 100 * j)%nat with (offset + 100 * S j)%nat by lia.
Qed.

Lemma fetchAllInstalls_throws apiInstalls (k fuel : nat) (e : string) :
  listingFailsAt apiInstalls k e → (k < fuel)%nat →
  fetchAllInstalls apiInstalls fuel = Throw e.
Proof.
  intros [Hpages Hfail] Hfuel.
  by apply (fetchAllInstalls_loop_throws apiInstalls k fuel [] 0 e).
Qed.

(** C7: when the listing of the installs fails during a call of
    [refreshData] that starts a pipeline, the error reaches the caller,
    [cachedData] (and the override store) is what it was before the call,
    the flag is lowered again, and [/api/data] serves what it served
    before: the projection of the previous snapshot when there is one. *)
Theorem refresh_listing_failure_keeps_snapshot
    (apiInstalls : nat -> Settled Api.InstallsPage)
    (apiDomains : string -> Settled Api.DomainsPage)
    (resolve4 resolveCname : string -> option (list string))
    (completion : list (DnsStage -> DnsStage) -> list (DnsStage -> DnsStage))
    (now : string) (fuel k : nat) (e : string) (s : State) :
  isRefreshing s = false →
  listingFailsAt apiInstalls k e →
  (k < fuel)%nat →
  let out := refreshData apiInstalls apiDomains resolve4 resolveCname
                         completion now fuel s in
  out.1 = Throw e
  ∧ cachedData out.2 = cachedData s
  ∧ confirmedDomains out.2 = confirmedDomains s
  ∧ isRefreshing out.2 = false
  ∧ (get_api_data out.2).1 = (get_api_data s).1
  ∧ (∀ snap, cachedData s = Some snap →
       ∃ p, applyConfirmedOverrides (confirmedDomains s) (Some snap) = Some p
            ∧ (get_api_data out.2).1
              = {| body_sites := Snapshot.sites p;
                   body_stats := Some (Snapshot.stats p) |}).
Proof.
  intros Hflag Hfail Hfuel out. subst out.
  unfold refreshData, pipeline. rewrite Hflag.
  rewrite (fetchAllInstalls_throws _ _ _ _ Hfail Hfuel).
  cbn [fst snd cachedData confirmedDomains isRefreshing].
  do 4 (split; [reflexivity|]).
  unfold get_api_data. cbn [fst snd cachedData confirmedDomains].
  split; [by destruct (cachedData s)|].
  intros snap ->. eexists. split; reflexivity.
Qed.

Lemma refresh_listing_failure_witness :
  let out := refreshData brokenApi cDomainsApi deadResolver deadResolver
                         (fun l => l) "2024-01-02T00:00:00.000Z" 3
                         (servingState (issueDomain "b.example.com")) in
  out.1 = Throw "API 502 on /installs?limit=100&offset=100"
  ∧ cachedData out.2 = Some (snapshotOf (issueDomain "b.example.com")).
Proof.
  pose proof (refresh_listing_failure_keeps_snapshot
                brokenApi cDomainsApi deadResolver deadResolver (fun l => l)
                "2024-01-02T00:00:00.000Z" 3 1
                "API 502 on /installs?limit=100&offset=100"
                (servingState (issueDomain "b.example.com"))) as H.
  destruct H as (H1 & H2 & _).
  - reflexivity.
  - split; [|reflexivity].
    intros j Hj. assert (j = 0)%nat as -> by lia.
    eexists. split; reflexivity.
  - lia.
  - split; [exact H1|exact H2].
Defined.

(** The domain listing stage returns the listing of every install, in the
    order of the installs. *)
Lemma listDomains_ok apiDomains (fuel : nat) (installs : list Api.Install) :
  (length installs ≤ fuel)%nat →
  listDomains apiDomains fuel installs = Ok (domainListing apiDomains installs, tt).
Proof.
  intros Hfuel. unfold listDomains, domainListing.
  destruct (batchAsync_spec
              (fun inst (_ : nat) (_ : list Api.Install) =>
                 ((inst, fetchDomains apiDomains (Api.inst_id inst)), fun u : unit => u))
              (fun inst => (inst, fetchDomains apiDomains (Api.inst_id inst)))
              (fun _ u => u) (fun l => l) 10
              ltac:(done) ltac:(done) ltac:(lia) fuel installs tt Hfuel)
    as (effs & _ & ->).
  by destruct (foldl _ tt effs).
Qed.

Lemma dnsStage_ok resolve4 resolveCname completion (fuel : nat)
    (customs : list Api.Domain) :
  (∀ l, completion l ≡ₚ l) →
  (length customs ≤ fuel)%nat →
  ∃ effs st0,
    effs ≡ₚ dnsWrite resolve4 resolveCname (length customs) <$> customs
    ∧ dnsStage resolve4 resolveCname completion fuel customs
      = Ok ((fun d => dnsLookup resolve4 resolveCname (Api.name d)) <$> customs,
            foldl (fun s eff => eff s) st0 effs).
Proof.
  intros Hperm Hfuel. unfold dnsStage.
  destruct (batchAsync_spec (dnsTask resolve4 resolveCname (length customs))
              (fun d => dnsLookup resolve4 resolveCname (Api.name d))
              (dnsWrite resolve4 resolveCname (length customs)) completion 30
              ltac:(done) Hperm ltac:(lia) fuel customs
              {| dnsResults := ∅; done := 0;
                 progress := "DNS checks on " +:+ pretty (length customs)
                             +:+ " domains..." |} Hfuel)
    as (effs & Hp & Heq).
  eauto.
Qed.

Lemma foldl_effects_preserve {S} (I : S → Prop) (effs : list (S → S)) :
  (∀ e, e ∈ effs → ∀ s, I s → I (e s)) →
  ∀ st, I st → I (foldl (fun s eff => eff s) st effs).
Proof.
  induction effs as [|e effs IH]; intros Hpres st Hst; simpl; [done|].
  apply IH; [intros; apply Hpres; set_solver|]. apply Hpres; [set_solver|done].
Qed.

Lemma foldl_effects_establish {S} (I : S → Prop) (effs : list (S → S)) :
  (∀ e, e ∈ effs → ∀ s, I s → I (e s)) →
  (∃ e, e ∈ effs ∧ ∀ s, I (e s)) →
  ∀ st, I (foldl (fun s eff => eff s) st effs).
Proof.
  induction effs as [|e effs IH]; intros Hpres (e0 & Hin & Hest) st; simpl.
  - by apply not_elem_of_nil in Hin.
  - apply elem_of_cons in Hin as [->|Hin].
    + apply foldl_effects_preserve; [intros; apply Hpres; set_solver|apply Hest].
    + apply IH; [intros; apply Hpres; set_solver|by exists e0].
Qed.

(** After the stage, [dnsResults[d.id]] is the lookup of [d.name] for every
    custom domain [d], whatever the order of completion, as long as the
    entries that share the id of [d] share its name. *)
Lemma dnsResults_after_stage resolve4 resolveCname (total : nat)
    (customs : list Api.Domain) (effs : list (DnsStage → DnsStage))
    (st0 : DnsStage) (d : Api.Domain) :
  effs ≡ₚ dnsWrite resolve4 resolveCname total <$> customs →
  d ∈ customs →
  (∀ d', d' ∈ customs → Api.id d' = Api.id d → Api.name d' = Api.name d) →
  dnsResults (foldl (fun s eff => eff s) st0 effs) !! Api.id d
  = Some (dnsLookup resolve4 resolveCname (Api.name d)).
Proof.
  intros Hperm Hd Hid.
  apply (foldl_effects_establish
           (fun st => dnsResults st !! Api.id d
                      = Some (dnsLookup resolve4 resolveCname (Api.name d)))).
  - intros e He st Hst. rewrite Hperm in He.
    apply list_elem_of_fmap in He as (d' & -> & Hd').
    unfold dnsWrite, dnsTask. cbn [snd dnsResults].
    destruct (decide (Api.id d' = Api.id d)) as [Heq|Hne].
    + rewrite Heq, lookup_insert_eq. by rewrite (Hid d' Hd' Heq).
    + by rewrite lookup_insert_ne.
  - exists (dnsWrite resolve4 resolveCname total d). split.
    + rewrite Hperm. by apply list_elem_of_fmap_2.
    + intros st. unfold dnsWrite, dnsTask. cbn [snd dnsResults].
      by rewrite lookup_insert_eq.
Qed.

Lemma dnsLookup_dead r4 rc (n : string) :
  r4 n = None → rc n = None →
  dnsLookup r4 rc n = {| ips := []; cnames := []; resolved := false |}.
Proof. intros H4 Hc. unfold dnsLookup. by rewrite H4, Hc. Qed.

(** The classifier on a custom domain without declared status whose DNS
    result is the one of a lookup that failed entirely. *)
Lemma classify_legacy_unresolved (d : Api.Domain) installCname allDomainNames :
  isSystemName (Api.name d) = false →
  declaredStatus d = None →
  determineDomainStatus d (Some {| ips := []; cnames := []; resolved := false |})
                        installCname allDomainNames
  = {| status := "issue"; detail := "DNS not resolving" |}.
Proof.
  intros Hsys Hdecl. unfold determineDomainStatus.
  by rewrite Hsys, networkStatus_declared, Hdecl.
Qed.

Lemma domainListing_lookup apiDomains (installs : list Api.Install) (i : nat)
    (inst : Api.Install) :
  installs !! i = Some inst →
  domainListing apiDomains installs !! i
  = Some (inst, fetchDomains apiDomains (Api.inst_id inst)).
Proof. intros Hi. unfold domainListing. by rewrite list_lookup_fmap, Hi. Qed.

(** C2 (as amended): in the refresh pipeline a custom domain without
    declared network status whose A-record and CNAME lookups both fail is
    classified "issue" / "DNS not resolving": the pipeline looks up every
    custom domain, so the classifier always receives a DNS result for it,
    here the unresolved one.  (Entries sharing the id of the domain are
    taken to share its name, [dnsResults] being keyed by id.) *)
Theorem refresh_unresolved_legacy_is_issue
    (apiInstalls : nat -> Settled Api.InstallsPage)
    (apiDomains : string -> Settled Api.DomainsPage)
    (resolve4 resolveCname : string -> option (list string))
    (completion : list (DnsStage -> DnsStage) -> list (DnsStage -> DnsStage))
    (now : string) (fuel : nat) (s : State)
    (installs : list Api.Install) (i j : nat) (inst : Api.Install) (d : Api.Domain) :
  isRefreshing s = false →
  (∀ l, completion l ≡ₚ l) →
  fetchAllInstalls apiInstalls fuel = Ok installs →
  (length installs ≤ fuel)%nat →
  (length (collectCustomDomains (domainListing apiDomains installs)) ≤ fuel)%nat →
  installs !! i = Some inst →
  fetchDomains apiDomains (Api.inst_id inst) !! j = Some d →
  isSystemName (Api.name d) = false →
  declaredStatus d = None →
  resolve4 (Api.name d) = None →
  resolveCname (Api.name d) = None →
  (∀ d', d' ∈ collectCustomDomains (domainListing apiDomains installs) →
         Api.id d' = Api.id d → Api.name d' = Api.name d) →
  let out := refreshData apiInstalls apiDomains resolve4 resolveCname
                         completion now fuel s in
  ∃ snap, out.1 = Ok snap
    ∧ cachedData out.2 = Some snap
    ∧ classificationAt snap i j = Some ("issue", "DNS not resolving").
Proof.
  intros Hflag Hperm Hinstalls Hf1 Hf2 Hi Hj Hsys Hdecl H4 Hc Hid out. subst out.
  unfold refreshData, pipeline.
  rewrite Hflag, Hinstalls, (listDomains_ok _ _ _ Hf1). unfold assemble.
  destruct (dnsStage_ok resolve4 resolveCname completion fuel _ Hperm Hf2)
    as (effs & st0 & Heffs & ->).
  eexists. split; [reflexivity|]. split; [reflexivity|].
  unfold classificationAt, buildSnapshot. cbn [Snapshot.sites].
  rewrite list_lookup_fmap, (domainListing_lookup _ _ _ _ Hi).
  cbn [fmap option_fmap option_map mbind option_bind].
  unfold buildSite. cbn [Site.domains fst snd].
  rewrite list_lookup_fmap, Hj. cbn [fmap option_fmap option_map mbind option_bind].
  f_equal. unfold enrichDomain. cbn [EDomain.status EDomain.detail].
  rewrite (dnsResults_after_stage resolve4 resolveCname _ _ effs st0 d Heffs).
  - rewrite (dnsLookup_dead _ _ _ H4 Hc).
    by rewrite (classify_legacy_unresolved d _ _ Hsys Hdecl).
  - unfold collectCustomDomains. apply list_elem_of_bind.
    exists (inst, fetchDomains apiDomains (Api.inst_id inst)). split.
    + apply list_elem_of_filter. split; [done|]. by eapply list_elem_of_lookup_2.
    + unfold domainListing. apply list_elem_of_fmap.
      exists inst. split; [done|]. by eapply list_elem_of_lookup_2.
  - exact Hid.
Qed.

Lemma refresh_unresolved_legacy_witness :
  ∃ snap,
    (refreshData onePageApi cDomainsApi deadResolver deadResolver (fun l => l)
                 "2024-01-02T00:00:00.000Z" 5 emptyState).1 = Ok snap
    ∧ classificationAt snap 0 0 = Some ("issue", "DNS not resolving").
Proof.
  destruct (refresh_unresolved_legacy_is_issue
              onePageApi cDomainsApi deadResolver deadResolver (fun l => l)
              "2024-01-02T00:00:00.000Z" 5 emptyState [exInstall] 0 0 exInstall
              (legacyDomain "c.example.com" "d-c"))
    as (snap & H1 & _ & H2).
  - reflexivity.
  - done.
  - reflexivity.
  - simpl. lia.
  - vm_compute. lia.
  - reflexivity.
  - reflexivity.
  - reflexivity.
  - reflexivity.
  - reflexivity.
  - reflexivity.
  - intros d' Hd' _.
    assert (collectCustomDomains (domainListing cDomainsApi [exInstall])
            = [legacyDomain "c.example.com" "d-c"]) as E by reflexivity.
    rewrite E in Hd'. by apply list_elem_of_singleton in Hd' as ->.
  - exists snap. split; [exact H1|exact H2].
Defined.

(** C2 (as stated) fails on the scenario of the specification: one install
    whose only domain is [c.example.com], without declared status, and a
    resolver that fails on both lookups.  The refresh classifies it
    "issue" / "DNS not resolving", not "unknown" / "No status data". *)
Lemma refresh_unresolved_legacy_not_unknown :
  ∃ snap,
    (refreshData onePageApi cDomainsApi deadResolver deadResolver (fun l => l)
                 "2024-01-02T00:00:00.000Z" 5 emptyState).1 = Ok snap
    ∧ classificationAt snap 0 0 = Some ("issue", "DNS not resolving")
    ∧ classificationAt snap 0 0 ≠ Some ("unknown", "No status data").
Proof.
  eexists. split; [vm_compute; reflexivity|]. by split.
Qed.

(** ** Override store *)

Lemma truthy_Some (x : string) : x ≠ "" → Js.truthy (Some x) = true.
Proof. intros Hx. simpl. by apply String.eqb_neq in Hx as ->. Qed.

Lemma post_confirm_accepted (t x : string) (s : State) :
  x ≠ "" →
  post_confirm t (Some x) s
  = (ConfirmOk x true,
     setConfirmed (storeSet (confirmedDomains s) x {| confirmedAt := t |}) s).
Proof. intros Hx. unfold post_confirm. by rewrite (truthy_Some x Hx). Qed.

Lemma delete_confirm_accepted (x : string) (s : State) :
  x ≠ "" →
  delete_confirm (Some x) s
  = (ConfirmOk x false, setConfirmed (storeDelete (confirmedDomains s) x) s).
Proof. intros Hx. unfold delete_confirm. by rewrite (truthy_Some x Hx). Qed.

(** Reading a key that was just assigned gives the assigned entry, also
    for [__proto__], whose getter hands the new prototype back. *)
Lemma storeGet_storeSet (st : Store) (x : string) (v : Override) :
  storeGet (storeSet st x v) x = Some (VEntry v).
Proof.
  unfold storeGet, storeSet.
  destruct (entries st !! x) as [o|] eqn:Hx; cbn [entries].
  - by rewrite lookup_insert_eq.
  - destruct (String.eqb_spec x "__proto__") as [->|Hp]; cbn [entries].
    + rewrite Hx. reflexivity.
    + by rewrite lookup_insert_eq.
Qed.

Lemma entries_storeSet_ne (st : Store) (x y : string) (v : Override) :
  y ≠ x → entries (storeSet st x v) !! y = entries st !! y.
Proof.
  intros Hy. unfold storeSet.
  destruct (entries st !! x); [|destruct (String.eqb x "__proto__")];
    cbn [entries]; by rewrite ?lookup_insert_ne.
Qed.

Lemma entries_storeSet (st : Store) (x : string) (v : Override) :
  x ≠ "__proto__" ∨ is_Some (entries st !! x) →
  entries (storeSet st x v) = <[ x := v ]> (entries st).
Proof.
  intros H. unfold storeSet. destruct (entries st !! x) as [o|] eqn:Hx; [done|].
  destruct H as [H|[o Ho]]; [|done].
  by apply String.eqb_neq in H as ->.
Qed.

Lemma storeSet_proto (st : Store) (v : Override) :
  entries st !! "__proto__" = None →
  storeSet st "__proto__" v = {| entries := entries st; prototype := Some v |}.
Proof. intros H. unfold storeSet. by rewrite H. Qed.

Lemma prototype_storeSet (st : Store) (x : string) (v : Override) :
  x ≠ "__proto__" → prototype (storeSet st x v) = prototype st.
Proof.
  intros H. unfold storeSet. apply String.eqb_neq in H. rewrite H.
  by destruct (entries st !! x).
Qed.

Lemma storeSet_storeSet (st : Store) (x : string) (v1 v2 : Override) :
  storeSet (storeSet st x v1) x v2 = storeSet st x v2.
Proof.
  unfold storeSet.
  destruct (entries st !! x) as [o|] eqn:Hx; cbn [entries prototype].
  - by rewrite lookup_insert_eq, insert_insert_eq.
  - destruct (String.eqb x "__proto__"); cbn [entries prototype].
    + by rewrite Hx.
    + by rewrite lookup_insert_eq, insert_insert_eq.
Qed.

Lemma storeDelete_absent (st : Store) (x : string) :
  entries st !! x = None → storeDelete st x = st.
Proof. intros H. unfold storeDelete. rewrite (delete_id _ _ H). by destruct st. Qed.

Lemma dom_entries_storeSet (st : Store) (x : string) (v1 v2 : Override) :
  dom (entries (storeSet st x v1)) = dom (entries (storeSet st x v2)).
Proof.
  unfold storeSet.
  destruct (entries st !! x); [|destruct (String.eqb x "__proto__")];
    cbn [entries]; by rewrite ?dom_insert_L.
Qed.

(** After an assignment and a [delete] of the same key the own entries
    are the earlier ones without the key, and a read of the key goes to
    the prototype chain. *)
Lemma entries_storeDelete_storeSet (st : Store) (x : string) (v : Override) :
  entries (storeDelete (storeSet st x v) x) = delete x (entries st).
Proof.
  unfold storeDelete, storeSet.
  destruct (entries st !! x) as [o|] eqn:Hx; cbn [entries].
  - by rewrite delete_insert_eq.
  - destruct (String.eqb x "__proto__"); cbn [entries]; [done|].
    by rewrite delete_insert_eq.
Qed.

Lemma storeGet_storeDelete (st : Store) (x : string) :
  storeGet (storeDelete st x) x = storeInherited st x.
Proof.
  unfold storeGet, storeDelete. cbn [entries]. by rewrite lookup_delete_eq.
Qed.

Lemma storeInherited_storeSet (st : Store) (x y : string) (v : Override) :
  x ≠ "__proto__" → storeInherited (storeSet st x v) y = storeInherited st y.
Proof.
  intros H. unfold storeInherited. by rewrite (prototype_storeSet _ _ _ H).
Qed.

Lemma storeInherited_proto_truthy (st : Store) :
  valueTruthy (storeInherited st "__proto__") = true.
Proof. unfold storeInherited. simpl. by destruct (prototype st). Qed.

(** The projection rewrites the domains in place: domain [j] of site [i]
    of the projection is the rewrite of domain [j] of site [i]. *)
Lemma domainAt_project (m : Store) (snap : Snapshot.t) (i j : nat) :
  domainAt (applyConfirmedOverrides m (Some snap)) i j
  = overrideDomain m <$> domainAt (Some snap) i j.
Proof.
  unfold domainAt, applyConfirmedOverrides.
  cbn [mbind option_bind Snapshot.sites]. rewrite list_lookup_fmap.
  destruct (Snapshot.sites snap !! i) as [site|]; [|done].
  cbn [fmap option_fmap option_map mbind option_bind overrideSite Site.domains].
  by rewrite list_lookup_fmap.
Qed.

Lemma overrideDomain_confirmed (m : Store) (d : EDomain.t) :
  EDomain.status d = "issue" →
  valueTruthy (storeGet m (EDomain.name d)) = true →
  let d' := overrideDomain m d in
  EDomain.status d' = "confirmed"
  ∧ EDomain.originalStatus d' = Some "issue"
  ∧ EDomain.originalDetail d' = Some (EDomain.detail d)
  ∧ EDomain.confirmedAt d' = valueConfirmedAt (storeGet m (EDomain.name d))
  ∧ EDomain.name d' = EDomain.name d.
Proof. intros Hst Hm. unfold overrideDomain. rewrite Hst, Hm. by simpl. Qed.




(** The round trip stops short for a name the store object inherits: the
    store of a fresh process has no entry, yet an issue domain named
    "constructor" is served as confirmed, without a [confirmedAt], before
    any request, and again after a confirm and an unconfirm of that name. *)
Lemma unconfirm_inherited_name_stays_confirmed :
  let s := servingState (issueDomain "constructor") in
  let c := post_confirm "2024-01-03T00:00:00.000Z" (Some "constructor") s in
  let u := delete_confirm (Some "constructor") c.2 in
  confirmedDomains s = ∅
  ∧ (EDomain.status <$> domainAt (project s) 0 0) = Some "confirmed"
  ∧ (EDomain.confirmedAt <$> domainAt (project s) 0 0) = Some None
  ∧ u.1 = ConfirmOk "constructor" false
  ∧ u.2 = s
  ∧ (EDomain.status <$> domainAt (project u.2) 0 0) = Some "confirmed".
Proof. cbv zeta. repeat split; reflexivity. Qed.

(** A request without a name, or with the empty string for a name, is
    answered 400 "domain is required" and stores nothing. *)
Lemma post_confirm_empty_name_rejected (t : string) (s : State) :
  post_confirm t (Some "") s = (BadRequest "domain is required", s)
  ∧ post_confirm t None s = (BadRequest "domain is required", s)
  ∧ delete_confirm (Some "") s = (BadRequest "domain is required", s)
  ∧ delete_confirm None s = (BadRequest "domain is required", s).
Proof. by repeat split. Qed.


(** C5 (as amended): for a non-empty name, a second confirm leaves the
    store as a single confirm made at the time of the second call does:
    the same names are confirmed, every other entry is the one the first
    call left, and the entry of the name carries the later timestamp, so
    that the two calls equal the first alone when the timestamps agree;
    and unconfirming a name that is not in the store answers ok and leaves
    the state as it was. *)
Theorem confirm_twice_unconfirm_absent (x t1 t2 : string) (s : State) :
  x ≠ "" →
  let once := (post_confirm t1 (Some x) s).2 in
  let twice := (post_confirm t2 (Some x) once).2 in
  twice = (post_confirm t2 (Some x) s).2
  ∧ dom (entries (confirmedDomains twice)) = dom (entries (confirmedDomains once))
  ∧ (∀ y, y ≠ x → entries (confirmedDomains twice) !! y
                  = entries (confirmedDomains once) !! y)
  ∧ storeGet (confirmedDomains twice) x = Some (VEntry {| confirmedAt := t2 |})
  ∧ (x ≠ "__proto__" →
     entries (confirmedDomains twice) !! x = Some {| confirmedAt := t2 |})
  ∧ (t1 = t2 → twice = once)
  ∧ (entries (confirmedDomains s) !! x = None →
     delete_confirm (Some x) s = (ConfirmOk x false, s)).
Proof.
  intros Hx once twice. subst once twice.
  rewrite !(post_confirm_accepted _ _ _ Hx). cbn [snd].
  unfold setConfirmed. cbn [cachedData isRefreshing refreshProgress confirmedDomains].
  rewrite storeSet_storeSet.
  split; [done|]. split; [apply dom_entries_storeSet|].
  split; [intros y Hy; by rewrite !entries_storeSet_ne|].
  split; [apply storeGet_storeSet|].
  split; [intros Hp; rewrite entries_storeSet by (by left); apply lookup_insert_eq|].
  split; [by intros ->|].
  intros Habs. rewrite (delete_confirm_accepted _ _ Hx).
  unfold setConfirmed. rewrite (storeDelete_absent _ _ Habs). by destruct s.
Qed.

Lemma confirm_twice_unconfirm_absent_witness :
  (post_confirm "2024-01-04T00:00:00.000Z" (Some "a.example.com")
     (post_confirm "2024-01-03T00:00:00.000Z" (Some "a.example.com") emptyState).2).2
  = (post_confirm "2024-01-04T00:00:00.000Z" (Some "a.example.com") emptyState).2
  ∧ delete_confirm (Some "a.example.com") emptyState
    = (ConfirmOk "a.example.com" false, emptyState).
Proof.
  destruct (confirm_twice_unconfirm_absent "a.example.com"
              "2024-01-03T00:00:00.000Z" "2024-01-04T00:00:00.000Z" emptyState)
    as (H1 & _ & _ & _ & _ & _ & H2).
  - discriminate.
  - split; [exact H1|]. apply H2. reflexivity.
Defined.

(** C5 (as stated) fails when the two confirms happen at different times:
    the second call overwrites [confirmedAt], so the store after both calls
    is not the store after the first. *)
Lemma confirm_twice_differs_from_once :
  (post_confirm "2024-01-04T00:00:00.000Z" (Some "a.example.com")
     (post_confirm "2024-01-03T00:00:00.000Z" (Some "a.example.com") emptyState).2).2
  ≠ (post_confirm "2024-01-03T00:00:00.000Z" (Some "a.example.com") emptyState).2.
Proof.
  intros H.
  apply (f_equal (fun s => confirmedAt <$> entries (confirmedDomains s) !! "a.example.com")) in H.
  vm_compute in H. discriminate H.
Qed.

(** ** Single-flight guard *)

Lemma runningCount_cons (t : Task) (l : list Task) :
  runningCount (t :: l)
  = ((if isRunning t then 1 else 0) + runningCount l)%nat.
Proof.
  unfold runningCount. rewrite filter_cons.
  destruct (isRunning t); case_decide; simpl; congruence.
Qed.

Lemma runningCount_snoc (l : list Task) (t : Task) :
  runningCount (l ++ [t])
  = (runningCount l + if isRunning t then 1 else 0)%nat.
Proof.
  induction l as [|x l IH].
  - change ([] ++ [t])%list with [t]. rewrite runningCount_cons.
    unfold runningCount. simpl. lia.
  - change ((x :: l) ++ [t])%list with (x :: (l ++ [t]))%list.
    rewrite !runningCount_cons, IH. lia.
Qed.

Lemma runningCount_insert (l : list Task) (i : nat) (t t' : Task) :
  l !! i = Some t →
  (runningCount (<[ i := t' ]> l) + (if isRunning t then 1 else 0)
   = runningCount l + (if isRunning t' then 1 else 0))%nat.
Proof.
  revert i. induction l as [|x l IH]; intros i Hi; [done|].
  destruct i as [|i]; simpl in Hi.
  - injection Hi as ->. simpl. rewrite !runningCount_cons. lia.
  - simpl. rewrite !runningCount_cons. specialize (IH i Hi). lia.
Qed.

(** Every turn keeps the flag and the running calls in agreement. *)
Lemma step_guardInv (ev : Event) (σ σ' : Sys) :
  guardInv σ → step ev σ = Some σ' → guardInv σ'.
Proof.
  unfold guardInv. intros Hinv Hstep. destruct ev as [|i snap|i e|i]; simpl in Hstep.
  - destruct (isRefreshing (vars σ)) eqn:Hflag; injection Hstep as <-; simpl;
      rewrite runningCount_snoc; simpl; [rewrite Hflag|]; lia.
  - destruct (tasks σ !! i) as [[| |r]|] eqn:Hi; try done.
    injection Hstep as <-. simpl.
    pose proof (runningCount_insert _ _ _ (Settledwith (Fulfilled (Some snap))) Hi) as H.
    simpl in H. destruct (isRefreshing (vars σ)); lia.
  - destruct (tasks σ !! i) as [[| |r]|] eqn:Hi; try done.
    injection Hstep as <-. simpl.
    pose proof (runningCount_insert _ _ _ (Settledwith (Rejected e)) Hi) as H.
    simpl in H. destruct (isRefreshing (vars σ)); lia.
  - destruct (tasks σ !! i) as [[| |r]|] eqn:Hi; try done.
    destruct (isRefreshing (vars σ)) eqn:Hflag; injection Hstep as <-; simpl.
    + by rewrite Hflag.
    + pose proof (runningCount_insert _ _ _
                    (Settledwith (Fulfilled (cachedData (vars σ)))) Hi) as H.
      simpl in H. rewrite Hflag. lia.
Qed.

Lemma run_guardInv (evs : list Event) :
  ∀ σ σ', guardInv σ → run evs σ = Some σ' → guardInv σ'.
Proof.
  induction evs as [|ev evs IH]; intros σ σ' Hinv Hrun; simpl in Hrun.
  - by injection Hrun as <-.
  - destruct (step ev σ) as [σ1|] eqn:Hstep; [|done].
    eapply IH; [|exact Hrun]. by eapply step_guardInv.
Qed.







(** The turns of one call taken alone are [refreshData]: a call followed
    by the completion of its run leaves the process variables that the
    sequential function computes, for a run that succeeds and for one that
    throws. *)
Lemma refreshData_as_turns apiInstalls apiDomains resolve4 resolveCname
    completion (now : string) (fuel : nat) (s : State) :
  isRefreshing s = false →
  match refreshData apiInstalls apiDomains resolve4 resolveCname completion
                    now fuel s with
  | (Ok snap, s') =>
    ∃ σ, run [Call; PipelineOk 0 snap] (boot s) = Some σ
         ∧ vars σ = s' ∧ tasks σ = [Settledwith (Fulfilled (Some snap))]
  | (Throw e, s') =>
    ∃ σ, run [Call; PipelineFail 0 e] (boot s) = Some σ
         ∧ vars σ = s' ∧ tasks σ = [Settledwith (Rejected e)]
  | (OutOfFuel, s') =>
    ∃ σ, run [Call] (boot s) = Some σ
         ∧ isRefreshing (vars σ) = isRefreshing s' ∧ tasks σ = [Running]
  end.
Proof.
  intros Hf. unfold refreshData. rewrite Hf.
  destruct (pipeline _ _ _ _ _ _ _) as [snap|e|]; simpl; rewrite Hf; simpl;
    eexists; repeat split; reflexivity.
Qed.

(** * Further properties of the code *)

(** ** Classifier: the branches beside ACTIVE and PENDING *)

Lemma toUpperCase_empty (s : string) : Js.toUpperCase s = "" ↔ s = "".
Proof. destruct s; simpl; split; congruence. Qed.

Lemma truthy_networkStatus (d : Api.Domain) :
  Js.truthy (networkStatus d) = Js.truthy (declaredStatus d).
Proof.
  rewrite networkStatus_declared. destruct (declaredStatus d) as [st|]; [|done].
  simpl. destruct st; reflexivity.
Qed.

Lemma strictEq_falsy (o : option string) (s : string) :
  Js.truthy o = false → s ≠ "" → Js.strictEq o s = false.
Proof.
  destruct o as [x|]; simpl; [|done].
  destruct (String.eqb_spec x "") as [->|]; [|done].
  intros _ Hs. by apply String.eqb_neq.
Qed.

(** X1: the verdict of the classifier is one of system, good, issue,
    pending, unknown, never confirmed; and it is system exactly for the
    names with a provider-internal suffix, whatever the declared status and
    the DNS result are. *)
Theorem classify_status_range (d : Api.Domain) (dnsResult : option DNSResult)
    (installCname : option string) (allDomainNames : option (gset string)) :
  let v := determineDomainStatus d dnsResult installCname allDomainNames in
  status v ∈ classifierStatuses
  ∧ status v ≠ "confirmed"
  ∧ (status v = "system" ↔ isSystemName (Api.name d) = true)
  ∧ (isSystemName (Api.name d) = true → detail v = "System domain").
Proof.
  unfold determineDomainStatus, classifierStatuses.
  destruct (isSystemName (Api.name d)); simpl.
  { split; [set_solver|]. by repeat split. }
  repeat match goal with
         | |- context [if ?b then _ else _] => destruct b; simpl
         end;
    (split; [set_solver|]); (split; [done|]); split; try done; by split.
Qed.

(** X2: a custom domain declared DELETED is an issue, "Network deleted",
    in any letter case of the status and for every DNS result, also one
    that points at the provider. *)
Theorem classify_deleted (d : Api.Domain) (dnsResult : option DNSResult)
    (installCname : option string) (allDomainNames : option (gset string)) :
  isSystemName (Api.name d) = false →
  declaredStatusIs d "DELETED" →
  determineDomainStatus d dnsResult installCname allDomainNames
  = {| status := "issue"; detail := "Network deleted" |}.
Proof.
  intros Hsys Hd. unfold determineDomainStatus.
  rewrite Hsys, (declaredStatusIs_networkStatus _ _ Hd). reflexivity.
Qed.

Lemma classify_deleted_witness :
  dnsPointsToWPE (Some resultP) None None = true
  ∧ determineDomainStatus (mkDomain "old.example.com" "d-o" (Some "Deleted") None None)
                          (Some resultP) None None
    = {| status := "issue"; detail := "Network deleted" |}.
Proof.
  split; [reflexivity|].
  apply (classify_deleted (mkDomain "old.example.com" "d-o" (Some "Deleted") None None)
                          (Some resultP) None None).
  - reflexivity.
  - exists "Deleted". split; reflexivity.
Defined.

(** X3: a custom domain whose declared status is missing or the empty
    string is judged on the fingerprint alone (the expected records play
    no part): "DNS pointed (Legacy)" when it matches, otherwise "DNS not
    pointed to WPE" for a result that resolved, "DNS not resolving" for one
    that did not, and unknown, "No status data", without a DNS result. *)
Theorem classify_legacy (d : Api.Domain) (dnsResult : option DNSResult)
    (installCname : option string) (allDomainNames : option (gset string)) :
  isSystemName (Api.name d) = false →
  Js.truthy (declaredStatus d) = false →
  let v := determineDomainStatus d dnsResult installCname allDomainNames in
  let matches := dnsPointsToWPE dnsResult installCname allDomainNames in
  (matches = true → v = {| status := "good"; detail := "DNS pointed (Legacy)" |})
  ∧ (matches = false → ∀ r, dnsResult = Some r → resolved r = true →
       v = {| status := "issue"; detail := "DNS not pointed to WPE" |})
  ∧ (matches = false → ∀ r, dnsResult = Some r → resolved r = false →
       v = {| status := "issue"; detail := "DNS not resolving" |})
  ∧ (dnsResult = None → v = {| status := "unknown"; detail := "No status data" |}).
Proof.
  intros Hsys Hst v matches. subst v matches. unfold determineDomainStatus.
  rewrite <- truthy_networkStatus in Hst.
  rewrite Hsys, !(strictEq_falsy _ _ Hst), Hst by done. simpl negb. cbv iota.
  destruct (dnsPointsToWPE dnsResult installCname allDomainNames) eqn:E.
  - split; [done|]. split; [done|]. split; [done|]. by intros ->.
  - split; [done|]. split; [|split].
    + intros _ r -> Hr. simpl. by rewrite Hr.
    + intros _ r -> Hr. simpl. by rewrite Hr.
    + by intros ->.
Qed.

Lemma classify_legacy_witness :
  determineDomainStatus (legacyDomain "l.example.com" "d-l") (Some resultP) None None
  = {| status := "good"; detail := "DNS pointed (Legacy)" |}
  ∧ determineDomainStatus (legacyDomain "l.example.com" "d-l") None None None
    = {| status := "unknown"; detail := "No status data" |}.
Proof.
  destruct (classify_legacy (legacyDomain "l.example.com" "d-l") (Some resultP) None None)
    as (H1 & _); [reflexivity|reflexivity|].
  destruct (classify_legacy (legacyDomain "l.example.com" "d-l") None None None)
    as (_ & _ & _ & H4); [reflexivity|reflexivity|].
  split; [apply H1; reflexivity|apply H4; reflexivity].
Defined.

Lemma toUpperCase_not_Unknown (s : string) : Js.toUpperCase s ≠ "Unknown".
Proof.
  intros H. destruct s as [|c1 [|c2 s]]; try discriminate H.
  cbn [Js.toUpperCase] in H. injection H as _ H2 _.
  destruct c2 as [[] [] [] [] [] [] [] []]; vm_compute in H2; discriminate H2.
Qed.

(** X4: a custom domain with any other declared status, written in ASCII
    (where [toUpperCase] raises the letters a..z and nothing else), is
    unknown, and the reason is that status in upper case; it is never the
    fallback reason "Unknown" of the last line. *)
Theorem classify_other_status (d : Api.Domain) (st : string)
    (dnsResult : option DNSResult) (installCname : option string)
    (allDomainNames : option (gset string)) :
  isSystemName (Api.name d) = false →
  declaredStatus d = Some st →
  Js.isAscii st = true →
  st ≠ "" →
  Js.toUpperCase st ∉ ["ACTIVE"; "PENDING"; "DELETED"] →
  let v := determineDomainStatus d dnsResult installCname allDomainNames in
  v = {| status := "unknown"; detail := Js.toUpperCase st |}
  ∧ detail v ≠ "Unknown".
Proof.
  intros Hsys Hst _ Hne Hother v.
  assert (v = {| status := "unknown"; detail := Js.toUpperCase st |}) as ->.
  { subst v. unfold determineDomainStatus.
    rewrite Hsys, networkStatus_declared, Hst. simpl.
    assert (Js.toUpperCase st ≠ "") as Hu by (by rewrite toUpperCase_empty).
    destruct (String.eqb_spec (Js.toUpperCase st) "ACTIVE") as [E|_]; [set_solver|].
    destruct (String.eqb_spec (Js.toUpperCase st) "PENDING") as [E|_]; [set_solver|].
    destruct (String.eqb_spec (Js.toUpperCase st) "DELETED") as [E|_]; [set_solver|].
    destruct (String.eqb_spec (Js.toUpperCase st) "") as [E|_]; [done|].
    reflexivity. }
  split; [reflexivity|]. apply toUpperCase_not_Unknown.
Qed.

Lemma classify_other_status_witness :
  let v := determineDomainStatus
             (mkDomain "s.example.com" "d-x" (Some "Suspended") None None)
             (Some resultP) None None in
  v = {| status := "unknown"; detail := "SUSPENDED" |} ∧ detail v ≠ "Unknown".
Proof.
  apply (classify_other_status
           (mkDomain "s.example.com" "d-x" (Some "Suspended") None None) "Suspended").
  - reflexivity.
  - reflexivity.
  - reflexivity.
  - discriminate.
  - intros H. repeat (apply elem_of_cons in H as [H|H]; [discriminate H|]).
    by apply elem_of_nil in H.
Defined.

(** ** DNS verifier *)

(** X5: a lookup never fails: each list is what the resolver returned for
    that record type, or empty when that lookup failed; a result that
    lists a record is marked resolved; and a result not marked resolved
    lists nothing at all. *)
Theorem dnsLookup_swallows_failures
    (resolve4 resolveCname : string -> option (list string)) (domain : string) :
  let r := dnsLookup resolve4 resolveCname domain in
  ips r = default [] (resolve4 domain)
  ∧ cnames r = default [] (resolveCname domain)
  ∧ (foundSomething r → resolved r = true)
  ∧ (resolved r = false → r = {| ips := []; cnames := []; resolved := false |}).
Proof.
  unfold dnsLookup, foundSomething.
  destruct (resolve4 domain) as [a|], (resolveCname domain) as [[|c l]|]; simpl;
    repeat split; try done; intros [?|?]; done.
Qed.

(** X7: the fingerprint match grows with the index: a result that matches
    without an index matches with any index, and one that matches with an
    index matches with every larger one. *)
Theorem dnsPointsToWPE_index_monotone (dnsResult : option DNSResult)
    (installCname : option string) (idx idx' : gset string) :
  idx ⊆ idx' →
  (dnsPointsToWPE dnsResult installCname None = true →
   dnsPointsToWPE dnsResult installCname (Some idx) = true)
  ∧ (dnsPointsToWPE dnsResult installCname (Some idx) = true →
     dnsPointsToWPE dnsResult installCname (Some idx') = true).
Proof.
  intros Hsub. destruct dnsResult as [r|]; [|done].
  rewrite !dnsPointsToWPE_bool, !andb_true_iff, !orb_true_iff.
  rewrite suffix_or_install_true, prefix_true.
  pose proof (index_true r (Some idx)) as Hi. pose proof (index_true r (Some idx')) as Hi'.
  simpl in Hi, Hi'. rewrite Hi, Hi'. split.
  - intros (Hr & [[H|H]|H]); split; auto; done.
  - intros (Hr & [[H|H]|H]); split; auto.
    left. right. destruct H as (c & names & Hc & [= <-] & Hin).
    exists c, idx'. split; [done|]. split; [done|]. by apply Hsub.
Qed.

Lemma dnsPointsToWPE_index_monotone_witness :
  dnsPointsToWPE (Some {| ips := []; cnames := ["a.example.com"]; resolved := true |})
                 None (Some ({["a.example.com"]} ∪ {["b.example.com"]})) = true.
Proof.
  apply (dnsPointsToWPE_index_monotone
           (Some {| ips := []; cnames := ["a.example.com"]; resolved := true |})
           None {["a.example.com"]} ({["a.example.com"]} ∪ {["b.example.com"]})).
  - set_solver.
  - rewrite dnsPointsToWPE_bool. simpl.
    rewrite bool_decide_eq_true_2 by set_solver. reflexivity.
Defined.

(** ** Bounded-concurrency helper: the loop itself *)

Lemma batchAsync_loop_stuck {A B S} (fn : A -> nat -> list A -> B * (S -> S))
    (completion : list (S -> S) -> list (S -> S)) (a : A) (items : list A) :
  ∀ (fuel : nat) (results : list B) (st : S),
    batchAsync_loop fn completion fuel (a :: items) 0 0 results st = OutOfFuel.
Proof.
  induction fuel as [|fuel IH]; intros results st; [reflexivity|].
  cbn [batchAsync_loop]. simpl negb. cbv iota. apply IH.
Qed.

(** X8: with a concurrency of zero the index never advances: the call
    settles (with no value) only for an empty list of items, and for a
    non-empty list it never settles, however many turns it is given; no
    callback result is ever collected. *)
Theorem batchAsync_zero_concurrency {A B S}
    (fn : A -> nat -> list A -> B * (S -> S))
    (completion : list (S -> S) -> list (S -> S))
    (items : list A) (fuel : nat) (st : S) :
  batchAsync fn completion fuel items 0 st
  = match items with
    | [] => Ok ([], st)
    | _ :: _ => OutOfFuel
    end.
Proof.
  unfold batchAsync. destruct items as [|a items].
  - by destruct fuel.
  - apply batchAsync_loop_stuck.
Qed.

Lemma batchAsync_loop_rounds {A B S} (fn : A -> nat -> list A -> B * (S -> S))
    (completion : list (S -> S) -> list (S -> S)) (items : list A) (n : nat) :
  (1 ≤ n)%nat →
  ∀ (fuel i : nat) (results : list B) (st : S),
    ((length items - i ≤ fuel * n)%nat →
     ∃ res st', batchAsync_loop fn completion fuel items n i results st = Ok (res, st')
                ∧ length res = (length results + (length items - i))%nat)
    ∧ ((fuel * n < length items - i)%nat →
       batchAsync_loop fn completion fuel items n i results st = OutOfFuel).
Proof.
  intros Hn. induction fuel as [|fuel IH]; intros i results st.
  - cbn [batchAsync_loop].
    destruct (Nat.ltb_spec i (length items)); simpl; split; try lia.
    + done.
    + intros _. exists results, st. split; [done|lia].
  - cbn [batchAsync_loop].
    destruct (Nat.ltb_spec i (length items)) as [Hlt|Hge]; simpl negb; cbv iota.
    + set (batch := slice items i (i + n)).
      assert (length batch = (n `min` (length items - i))%nat) as Hb.
      { unfold batch, slice. rewrite length_take, length_drop. lia. }
      set (settled := imap (fun k x => fn x k batch) batch).
      assert (length settled = length batch) as Hs by (unfold settled; apply length_imap).
      destruct (IH (i + n)%nat (results ++ (fst <$> settled))%list
                   (foldl (fun s eff => eff s) st (completion (snd <$> settled))))
        as [IH1 IH2].
      split.
      * intros Hf. destruct IH1 as (res & st' & -> & Hlen); [lia|].
        exists res, st'. split; [done|].
        rewrite Hlen, length_app, length_fmap, Hs, Hb. lia.
      * intros Hf. apply IH2. lia.
    + split; [|lia]. intros _. exists results, st. split; [done|lia].
Qed.

(** X9: for a concurrency [n] of at least one the loop makes one turn per
    batch of [n] items: the call settles within [fuel] turns exactly when
    the items fit in [fuel] batches, and then it returns one value per
    item, whatever the callback and the order of completion are. *)
Theorem batchAsync_rounds {A B S} (fn : A -> nat -> list A -> B * (S -> S))
    (completion : list (S -> S) -> list (S -> S))
    (items : list A) (n fuel : nat) (st : S) :
  (1 ≤ n)%nat →
  ((length items ≤ fuel * n)%nat →
   ∃ res st', batchAsync fn completion fuel items n st = Ok (res, st')
              ∧ length res = length items)
  ∧ ((fuel * n < length items)%nat →
     batchAsync fn completion fuel items n st = OutOfFuel).
Proof.
  intros Hn. unfold batchAsync.
  destruct (batchAsync_loop_rounds fn completion items n Hn fuel 0 [] st) as [H1 H2].
  split.
  - intros Hf. destruct H1 as (res & st' & Heq & Hlen); [lia|].
    exists res, st'. split; [done|]. simpl in Hlen. lia.
  - intros Hf. apply H2. lia.
Qed.

(** Seven items by three: three turns are enough, two are not. *)
Lemma batchAsync_rounds_witness :
  (∃ res st', batchAsync (pureTask (S:=unit) (fun x : nat => x)) (fun l => l) 3
                         [1; 2; 3; 4; 5; 6; 7]%nat 3 tt = Ok (res, st')
              ∧ length res = 7%nat)
  ∧ batchAsync (pureTask (S:=unit) (fun x : nat => x)) (fun l => l) 2
               [1; 2; 3; 4; 5; 6; 7]%nat 3 tt = OutOfFuel.
Proof.
  split.
  - apply (batchAsync_rounds (pureTask (fun x : nat => x)) (fun l => l)
                             [1; 2; 3; 4; 5; 6; 7]%nat 3 3 tt); simpl; lia.
  - apply (batchAsync_rounds (pureTask (fun x : nat => x)) (fun l => l)
                             [1; 2; 3; 4; 5; 6; 7]%nat 3 2 tt); simpl; lia.
Defined.

(** ** Paginated listing of the installs *)

Lemma fetchAllInstalls_loop_pages apiInstalls (pages : nat -> Api.InstallsPage)
    (k : nat) :
  ∀ (b fuel : nat) (all : list Api.Install),
    (∀ j, (j ≤ k)%nat → apiInstalls (100 * (b + j))%nat = Fulfilled (pages (b + j)%nat)) →
    (∀ j, (j < k)%nat → Js.truthy (Api.next (pages (b + j)%nat)) = true) →
    Js.truthy (Api.next (pages (b + k)%nat)) = false →
    (k < fuel)%nat →
    fetchAllInstalls_loop apiInstalls fuel all (100 * b)
    = Ok (all ++ (j ← seq b (S k); default [] (Api.results (pages j))))%list.
Proof.
  induction k as [|k IH]; intros b fuel all Hpages Hnext Hlast Hfuel;
    (destruct fuel as [|fuel]; [lia|]); cbn [fetchAllInstalls_loop];
    pose proof (Hpages 0%nat ltac:(lia)) as H0;
    rewrite Nat.add_0_r in H0; rewrite H0.
  - rewrite Nat.add_0_r in Hlast. rewrite Hlast. simpl. by rewrite app_nil_r.
  - pose proof (Hnext 0%nat ltac:(lia)) as Hn0. rewrite Nat.add_0_r in Hn0.
    rewrite Hn0. simpl negb. cbv iota.
    replace (100 * b + 100)%nat with (100 * S b)%nat by lia.
    rewrite (IH (S b) fuel).
    + change (seq b (S (S k))) with (b :: seq (S b) (S k)).
      cbn [mbind list_bind]. by rewrite app_assoc.
    + intros j Hj. replace (S b + j)%nat with (b + S j)%nat by lia.
      apply Hpages. lia.
    + intros j Hj. replace (S b + j)%nat with (b + S j)%nat by lia.
      apply Hnext. lia.
    + by replace (S b + k)%nat with (b + S k)%nat by lia.
    + lia.
Qed.

(** X10: the listing asks for the offsets 0, 100, 200, ... in turn, stops
    at the first page that announces no next page, and returns the
    installs of all the pages it read, in page order; a page without a
    [results] field contributes nothing. *)
Theorem fetchAllInstalls_concatenates apiInstalls (pages : nat -> Api.InstallsPage)
    (k fuel : nat) :
  (∀ j, (j ≤ k)%nat → apiInstalls (100 * j)%nat = Fulfilled (pages j)) →
  (∀ j, (j < k)%nat → Js.truthy (Api.next (pages j)) = true) →
  Js.truthy (Api.next (pages k)) = false →
  (k < fuel)%nat →
  fetchAllInstalls apiInstalls fuel
  = Ok (j ← seq 0 (S k); default [] (Api.results (pages j))).
Proof.
  intros Hpages Hnext Hlast Hfuel. unfold fetchAllInstalls.
  change 0%nat with (100 * 0)%nat at 1.
  by rewrite (fetchAllInstalls_loop_pages apiInstalls pages k 0 fuel []).
Qed.

Lemma fetchAllInstalls_concatenates_witness :
  fetchAllInstalls twoPageApi 2 = Ok [installA; installB].
Proof.
  apply (fetchAllInstalls_concatenates twoPageApi
           (fun j => match j with
                     | 0 => {| Api.results := Some [installA];
                               Api.next := Some "/installs?limit=100&offset=100" |}
                     | _ => {| Api.results := Some [installB]; Api.next := None |}
                     end) 1 2).
  - intros j Hj. destruct j as [|[|j]]; [reflexivity|reflexivity|lia].
  - intros j Hj. assert (j = 0)%nat as -> by lia. reflexivity.
  - reflexivity.
  - lia.
Defined.

(** X11: the listing has no page limit of its own: against an API every
    page of which announces a next page it never returns. *)
Theorem fetchAllInstalls_endless apiInstalls (fuel : nat) :
  (∀ off, ∃ page, apiInstalls off = Fulfilled page
                  ∧ Js.truthy (Api.next page) = true) →
  fetchAllInstalls apiInstalls fuel = OutOfFuel.
Proof.
  intros Hall. unfold fetchAllInstalls. generalize (@nil Api.Install) 0%nat.
  induction fuel as [|fuel IH]; intros all off; [reflexivity|].
  cbn [fetchAllInstalls_loop].
  destruct (Hall off) as (page & -> & ->). simpl. apply IH.
Qed.

Lemma fetchAllInstalls_endless_witness :
  fetchAllInstalls
    (fun _ => Fulfilled {| Api.results := Some [installA];
                           Api.next := Some "/installs?limit=100&offset=0" |})
    1000 = OutOfFuel.
Proof.
  apply fetchAllInstalls_endless.
  intros off. eexists. split; reflexivity.
Defined.

(** ** Refresh pipeline: what a successful refresh stores *)

Lemma classify_custom_statuses (d : Api.Domain) dnsResult installCname allDomainNames :
  isSystemName (Api.name d) = false →
  status (determineDomainStatus d dnsResult installCname allDomainNames)
  ∈ ["good"; "issue"; "pending"; "unknown"].
Proof.
  intros Hsys. unfold determineDomainStatus. rewrite Hsys.
  repeat match goal with
         | |- context [if ?b then _ else _] => destruct b; simpl
         end; set_solver.
Qed.

Lemma classify_system_name (d : Api.Domain) dnsResult installCname allDomainNames :
  isSystemName (Api.name d) = true →
  determineDomainStatus d dnsResult installCname allDomainNames
  = {| status := "system"; detail := "System domain" |}.
Proof. intros Hsys. unfold determineDomainStatus. by rewrite Hsys. Qed.

(** The DNS stage from its initial state: every write is the lookup of a
    custom domain under the id of that domain, and every custom domain is
    written. *)
Lemma dnsStage_run resolve4 resolveCname completion (fuel : nat)
    (customs : list Api.Domain) :
  (∀ l, completion l ≡ₚ l) →
  (length customs ≤ fuel)%nat →
  ∃ res st,
    dnsStage resolve4 resolveCname completion fuel customs = Ok (res, st)
    ∧ (∀ k r, dnsResults st !! k = Some r →
              ∃ d', d' ∈ customs ∧ Api.id d' = k
                    ∧ r = dnsLookup resolve4 resolveCname (Api.name d'))
    ∧ (∀ d, d ∈ customs → is_Some (dnsResults st !! Api.id d))
    ∧ (∀ d, d ∈ customs →
            (∀ d', d' ∈ customs → Api.id d' = Api.id d → Api.name d' = Api.name d) →
            dnsResults st !! Api.id d
            = Some (dnsLookup resolve4 resolveCname (Api.name d))).
Proof.
  intros Hperm Hfuel. unfold dnsStage.
  set (st0 := {| dnsResults := ∅; done := 0;
                 progress := "DNS checks on " +:+ pretty (length customs)
                             +:+ " domains..." |}).
  destruct (batchAsync_spec (dnsTask resolve4 resolveCname (length customs))
              (fun d => dnsLookup resolve4 resolveCname (Api.name d))
              (dnsWrite resolve4 resolveCname (length customs)) completion 30
              ltac:(done) Hperm ltac:(lia) fuel customs st0 Hfuel)
    as (effs & Hp & ->).
  eexists _, _. split; [reflexivity|].
  assert (∀ e, e ∈ effs → ∃ d', d' ∈ customs
                               ∧ e = dnsWrite resolve4 resolveCname (length customs) d')
    as Heffs.
  { intros e He. rewrite Hp in He. apply list_elem_of_fmap in He as (d' & -> & Hd').
    by exists d'. }
  split; [|split].
  - apply (foldl_effects_preserve
             (fun st => ∀ k r, dnsResults st !! k = Some r →
                ∃ d', d' ∈ customs ∧ Api.id d' = k
                      ∧ r = dnsLookup resolve4 resolveCname (Api.name d'))).
    + intros e He st Hst k r. destruct (Heffs e He) as (d' & Hd' & ->).
      unfold dnsWrite, dnsTask. cbn [snd dnsResults].
      destruct (decide (Api.id d' = k)) as [<-|Hne].
      * rewrite lookup_insert_eq. intros [= <-]. by exists d'.
      * rewrite lookup_insert_ne by done. apply Hst.
    + intros k r. subst st0. simpl. by rewrite lookup_empty.
  - intros d Hd.
    apply (foldl_effects_establish (fun st => is_Some (dnsResults st !! Api.id d))).
    + intros e He st Hst. destruct (Heffs e He) as (d' & Hd' & ->).
      unfold dnsWrite, dnsTask. cbn [snd dnsResults].
      destruct (decide (Api.id d' = Api.id d)) as [->|Hne].
      * rewrite lookup_insert_eq. by eexists.
      * by rewrite lookup_insert_ne.
    + exists (dnsWrite resolve4 resolveCname (length customs) d). split.
      * rewrite Hp. by apply list_elem_of_fmap_2.
      * intros st. unfold dnsWrite, dnsTask. cbn [snd dnsResults].
        rewrite lookup_insert_eq. by eexists.
  - intros d Hd Hid.
    by apply (dnsResults_after_stage _ _ (length customs) customs).
Qed.

(** A refresh whose install listing succeeds: the snapshot it stores. *)
Lemma refreshData_ok apiInstalls apiDomains resolve4 resolveCname completion
    (now : string) (fuel : nat) (s : State) (installs : list Api.Install) :
  isRefreshing s = false →
  (∀ l, completion l ≡ₚ l) →
  listingOk apiInstalls apiDomains fuel installs →
  let L := domainListing apiDomains installs in
  let customs := collectCustomDomains L in
  ∃ dnsRes,
    refreshData apiInstalls apiDomains resolve4 resolveCname completion now fuel s
    = (Ok (buildSnapshot now installs (buildSite dnsRes (buildDomainNames L) <$> L)),
       {| cachedData :=
            Some (buildSnapshot now installs (buildSite dnsRes (buildDomainNames L) <$> L));
          isRefreshing := false; refreshProgress := "";
          confirmedDomains := confirmedDomains s |})
    ∧ (∀ k r, dnsRes !! k = Some r →
              ∃ d', d' ∈ customs ∧ Api.id d' = k
                    ∧ r = dnsLookup resolve4 resolveCname (Api.name d'))
    ∧ (∀ d, d ∈ customs → is_Some (dnsRes !! Api.id d))
    ∧ (∀ d, d ∈ customs →
            (∀ d', d' ∈ customs → Api.id d' = Api.id d → Api.name d' = Api.name d) →
            dnsRes !! Api.id d = Some (dnsLookup resolve4 resolveCname (Api.name d))).
Proof.
  intros Hflag Hperm (Hinst & Hf1 & Hf2) L customs.
  destruct (dnsStage_run resolve4 resolveCname completion fuel customs Hperm Hf2)
    as (res & st & Hst & Ha & Hb & Hc).
  exists (dnsResults st). split; [|done].
  unfold refreshData, pipeline. rewrite Hflag, Hinst, (listDomains_ok _ _ _ Hf1).
  unfold assemble. fold L. fold customs. by rewrite Hst.
Qed.

Lemma domainAt_buildSnapshot (now : string) (installs : list Api.Install)
    (dnsRes : gmap string DNSResult) (idx : gset string)
    (L : list (Api.Install * list Api.Domain)) (i j : nat) (ed : EDomain.t) :
  domainAt (Some (buildSnapshot now installs (buildSite dnsRes idx <$> L))) i j = Some ed ↔
  ∃ inst doms d, L !! i = Some (inst, doms) ∧ doms !! j = Some d
                 ∧ ed = enrichDomain dnsRes idx inst d.
Proof.
  unfold domainAt, buildSnapshot. cbn [mbind option_bind Snapshot.sites].
  rewrite list_lookup_fmap.
  destruct (L !! i) as [[inst doms]|]; cbn [fmap option_fmap option_map];
    [|split; [done|by intros (? & ? & ? & ? & _)]].
  cbn [mbind option_bind]. unfold buildSite. cbn [Site.domains fst snd].
  rewrite list_lookup_fmap.
  destruct (doms !! j) as [d|] eqn:Hj; cbn [fmap option_fmap option_map]; split.
  - intros [= <-]. by exists inst, doms, d.
  - intros (? & ? & ? & [= <- <-] & Hd & ->). rewrite Hj in Hd. by injection Hd as <-.
  - done.
  - intros (? & ? & ? & [= <- <-] & Hd & _). by rewrite Hj in Hd.
Qed.

Lemma elem_of_collectCustomDomains (L : list (Api.Install * list Api.Domain))
    (d : Api.Domain) :
  d ∈ collectCustomDomains L ↔
  isSystemName (Api.name d) = false ∧ ∃ p, p ∈ L ∧ d ∈ p.2.
Proof.
  unfold collectCustomDomains. rewrite list_elem_of_bind. split.
  - intros (p & [Hs Hd]%list_elem_of_filter & Hp). eauto.
  - intros (Hs & p & Hp & Hd). exists p. split; [|done].
    by apply list_elem_of_filter.
Qed.

Lemma names_fold (acc : gset string) (l : list Api.Domain) (n : string) :
  n ∈ foldl (fun acc d => acc ∪ {[ Api.name d ]}) acc l ↔
  n ∈ acc ∨ ∃ d, d ∈ l ∧ Api.name d = n.
Proof.
  revert acc. induction l as [|x l IH]; intros acc; simpl.
  - split; [by left|]. intros [?|(? & ?%not_elem_of_nil & _)]; done.
  - rewrite IH, elem_of_union, elem_of_singleton. split.
    + intros [[?|Hx]|(d & ? & ?)].
      * by left.
      * right. exists x. split; [by left|done].
      * right. exists d. split; [by right|done].
    + intros [?|(d & Hd & Hn)]; [left; by left|].
      apply elem_of_cons in Hd as [->|?]; [left; by right|right; by exists d].
Qed.

Lemma buildDomainNames_fold (acc : gset string)
    (L : list (Api.Install * list Api.Domain)) (n : string) :
  n ∈ foldl (fun acc p => foldl (fun acc d => acc ∪ {[ Api.name d ]}) acc p.2) acc L ↔
  n ∈ acc ∨ ∃ p d, p ∈ L ∧ d ∈ p.2 ∧ Api.name d = n.
Proof.
  revert acc. induction L as [|q L IH]; intros acc; simpl.
  - split; [by left|]. intros [?|(? & ? & ?%not_elem_of_nil & _)]; done.
  - rewrite IH, names_fold. split.
    + intros [[?|(d & ? & ?)]|(p & d & ? & ? & ?)].
      * by left.
      * right. exists q, d. split; [by left|done].
      * right. exists p, d. split; [by right|done].
    + intros [?|(p & d & Hp & Hd & Hn)]; [left; by left|].
      apply elem_of_cons in Hp as [->|?]; [left; right; by exists d|right; by exists p, d].
Qed.

(** X12: the cross-install index built by a refresh holds exactly the
    names of the domains listed for any install, system and custom alike. *)
Theorem buildDomainNames_spec (L : list (Api.Install * list Api.Domain)) (n : string) :
  n ∈ buildDomainNames L ↔ ∃ p d, p ∈ L ∧ d ∈ p.2 ∧ Api.name d = n.
Proof.
  unfold buildDomainNames. rewrite buildDomainNames_fold. split; [|by right].
  intros [?%not_elem_of_empty|?]; done.
Qed.

Lemma classificationAt_domainAt (snap : Snapshot.t) (i j : nat) :
  classificationAt snap i j
  = (fun d => (EDomain.status d, EDomain.detail d)) <$> domainAt (Some snap) i j.
Proof.
  unfold classificationAt, domainAt. cbn [mbind option_bind].
  destruct (Snapshot.sites snap !! i) as [site|]; [|done].
  cbn [mbind option_bind]. by destruct (Site.domains site !! j).
Qed.

Lemma sumCounts_app (l1 l2 : list nat) :
  sumCounts (l1 ++ l2) = (sumCounts l1 + sumCounts l2)%nat.
Proof. unfold sumCounts. induction l1 as [|x l1 IH]; simpl; lia. Qed.

Lemma countStatus_app (s : string) (l1 l2 : list EDomain.t) :
  countStatus s (l1 ++ l2) = (countStatus s l1 + countStatus s l2)%nat.
Proof. unfold countStatus. by rewrite filter_app, length_app. Qed.

Lemma customOf_app (l1 l2 : list EDomain.t) :
  customOf (l1 ++ l2) = (customOf l1 ++ customOf l2)%list.
Proof. unfold customOf. by rewrite filter_app. Qed.

Lemma length_bind_domains (ss : list Site.t) :
  length (site ← ss; Site.domains site)
  = sumCounts ((fun site => length (Site.domains site)) <$> ss).
Proof.
  induction ss as [|x ss IH]; [done|].
  cbn [mbind list_bind fmap list_fmap]. rewrite length_app, IH. reflexivity.
Qed.

Lemma countStatus_bind_domains (s : string) (ss : list Site.t) :
  countStatus s (customOf (site ← ss; Site.domains site))
  = sumCounts ((fun site => countStatus s (customOf (Site.domains site))) <$> ss).
Proof.
  induction ss as [|x ss IH]; [done|].
  cbn [mbind list_bind fmap list_fmap].
  rewrite customOf_app, countStatus_app, IH. reflexivity.
Qed.

Lemma countStatus_cons (s : string) (d : EDomain.t) (l : list EDomain.t) :
  countStatus s (d :: l)
  = ((if String.eqb (EDomain.status d) s then 1 else 0) + countStatus s l)%nat.
Proof.
  unfold countStatus. rewrite filter_cons.
  destruct (String.eqb_spec (EDomain.status d) s); case_decide; simpl; congruence.
Qed.

(** A list of domains whose verdicts are good, issue, pending or unknown is
    as long as the four counts together. *)
Lemma length_four_counts (l : list EDomain.t) :
  (∀ d, d ∈ l → EDomain.status d ∈ ["good"; "issue"; "pending"; "unknown"]) →
  length l = (countStatus "good" l + countStatus "issue" l
              + countStatus "pending" l + countStatus "unknown" l)%nat.
Proof.
  induction l as [|d l IH]; intros H; [done|].
  cbn [length]. rewrite !countStatus_cons, (IH ltac:(intros; apply H; by right)).
  assert (EDomain.status d ∈ ["good"; "issue"; "pending"; "unknown"]) as Hd
    by (apply H; by left).
  repeat (apply elem_of_cons in Hd as [->|Hd]; [simpl; lia|]).
  by apply elem_of_nil in Hd.
Qed.

Lemma enriched_custom_statuses (dnsRes : gmap string DNSResult) (idx : gset string)
    (L : list (Api.Install * list Api.Domain)) (ed : EDomain.t) :
  ed ∈ customOf (site ← buildSite dnsRes idx <$> L; Site.domains site) →
  EDomain.status ed ∈ ["good"; "issue"; "pending"; "unknown"].
Proof.
  unfold customOf. intros [Hsys Hin]%list_elem_of_filter.
  apply list_elem_of_bind in Hin as (site & Hed & Hsite).
  apply list_elem_of_fmap in Hsite as ([inst doms] & -> & _).
  unfold buildSite in Hed. cbn [Site.domains fst snd] in Hed.
  apply list_elem_of_fmap in Hed as (d & -> & _).
  unfold enrichDomain in *. cbn [EDomain.status EDomain.isSystem] in *.
  by apply classify_custom_statuses.
Qed.

(** X13: a refresh succeeds whenever the listing of the installs does: no
    failure of a domain listing or of a DNS lookup makes it throw.  It
    stores the snapshot it returns, lowers the flag, clears the progress
    message, leaves the override store alone, and the snapshot has one site
    per install, in the order of the listing. *)
Theorem refresh_succeeds_when_listing_succeeds
    apiInstalls apiDomains resolve4 resolveCname completion
    (now : string) (fuel : nat) (s : State) (installs : list Api.Install) :
  isRefreshing s = false →
  (∀ l, completion l ≡ₚ l) →
  listingOk apiInstalls apiDomains fuel installs →
  ∃ snap,
    refreshData apiInstalls apiDomains resolve4 resolveCname completion now fuel s
    = (Ok snap, {| cachedData := Some snap; isRefreshing := false;
                   refreshProgress := ""; confirmedDomains := confirmedDomains s |})
    ∧ Site.id <$> Snapshot.sites snap = Api.inst_id <$> installs
    ∧ Site.name <$> Snapshot.sites snap = Api.inst_name <$> installs
    ∧ Stats.totalSites (Snapshot.stats snap) = length installs
    ∧ Stats.timestamp (Snapshot.stats snap) = now.
Proof.
  intros Hflag Hperm Hok.
  destruct (refreshData_ok apiInstalls apiDomains resolve4 resolveCname completion
              now fuel s installs Hflag Hperm Hok) as (dnsRes & -> & _).
  eexists. split; [reflexivity|].
  unfold buildSnapshot, domainListing. cbn [Snapshot.sites Snapshot.stats].
  rewrite <- !list_fmap_compose. by repeat split.
Qed.

Lemma account_listingOk :
  listingOk twoPageApi accountDomainsApi 5 [installA; installB].
Proof. split; [reflexivity|]. split; [simpl; lia|vm_compute; lia]. Qed.

Lemma refresh_succeeds_when_listing_succeeds_witness :
  ∃ snap,
    (refreshData twoPageApi accountDomainsApi accountResolve4 accountResolveCname
                 (@rev _) "2024-01-05T00:00:00.000Z" 5 emptyState).1 = Ok snap
    ∧ Site.id <$> Snapshot.sites snap = ["i-a"; "i-b"].
Proof.
  destruct (refresh_succeeds_when_listing_succeeds
              twoPageApi accountDomainsApi accountResolve4 accountResolveCname
              (@rev _) "2024-01-05T00:00:00.000Z" 5 emptyState [installA; installB])
    as (snap & Heq & Hids & _).
  - reflexivity.
  - intros l. symmetry. apply Permutation_rev.
  - exact account_listingOk.
  - exists snap. rewrite Heq. split; [reflexivity|exact Hids].
Defined.

(** X14: an install whose domain listing fails appears in the snapshot as a
    site without domains and without issues; the refresh goes on. *)
Theorem refresh_survives_failed_domain_listing
    apiInstalls apiDomains resolve4 resolveCname completion
    (now : string) (fuel : nat) (s : State) (installs : list Api.Install)
    (i : nat) (inst : Api.Install) (e : string) :
  isRefreshing s = false →
  (∀ l, completion l ≡ₚ l) →
  listingOk apiInstalls apiDomains fuel installs →
  installs !! i = Some inst →
  apiDomains (Api.inst_id inst) = Rejected e →
  ∃ snap site,
    (refreshData apiInstalls apiDomains resolve4 resolveCname completion now fuel s).1
    = Ok snap
    ∧ Snapshot.sites snap !! i = Some site
    ∧ Site.id site = Api.inst_id inst
    ∧ Site.domains site = []
    ∧ Site.issueCount site = 0%nat
    ∧ Site.pendingCount site = 0%nat.
Proof.
  intros Hflag Hperm Hok Hi Hrej.
  destruct (refreshData_ok apiInstalls apiDomains resolve4 resolveCname completion
              now fuel s installs Hflag Hperm Hok) as (dnsRes & -> & _).
  eexists _, _. split; [reflexivity|].
  unfold buildSnapshot. cbn [Snapshot.sites].
  rewrite list_lookup_fmap, (domainListing_lookup _ _ _ _ Hi).
  unfold fetchDomains. rewrite Hrej. by repeat split.
Qed.

Lemma refresh_survives_failed_domain_listing_witness :
  ∃ snap site,
    (refreshData twoPageApi accountDomainsApi accountResolve4 accountResolveCname
                 (@rev _) "2024-01-05T00:00:00.000Z" 5 emptyState).1 = Ok snap
    ∧ Snapshot.sites snap !! 1%nat = Some site
    ∧ Site.id site = "i-b" ∧ Site.domains site = [].
Proof.
  destruct (refresh_survives_failed_domain_listing
              twoPageApi accountDomainsApi accountResolve4 accountResolveCname
              (@rev _) "2024-01-05T00:00:00.000Z" 5 emptyState [installA; installB]
              1 installB "API 500 on /installs/i-b/domains?limit=100")
    as (snap & site & Heq & Hsite & Hid & Hdom & _).
  - reflexivity.
  - intros l. symmetry. apply Permutation_rev.
  - exact account_listingOk.
  - reflexivity.
  - reflexivity.
  - exists snap, site. by repeat split.
Defined.

(** X15: the statistics of a refreshed snapshot add up: the total and the
    issue and pending counts are the sums of the per-site figures, the
    custom domains are the good, issue, pending and unknown ones together,
    and there are no more custom domains than domains. *)
Theorem refresh_stats_consistent
    apiInstalls apiDomains resolve4 resolveCname completion
    (now : string) (fuel : nat) (s : State) (installs : list Api.Install) :
  isRefreshing s = false →
  (∀ l, completion l ≡ₚ l) →
  listingOk apiInstalls apiDomains fuel installs →
  ∃ snap,
    (refreshData apiInstalls apiDomains resolve4 resolveCname completion now fuel s).1
    = Ok snap
    ∧ let st := Snapshot.stats snap in
      let sites := Snapshot.sites snap in
      Stats.totalDomains st = sumCounts ((fun site => length (Site.domains site)) <$> sites)
      ∧ Stats.issues st = sumCounts (Site.issueCount <$> sites)
      ∧ Stats.pending st = sumCounts (Site.pendingCount <$> sites)
      ∧ Stats.customDomains st
        = (Stats.good st + Stats.issues st + Stats.pending st
           + countStatus "unknown" (customOf (allDomainsOf snap)))%nat
      ∧ (Stats.customDomains st ≤ Stats.totalDomains st)%nat.
Proof.
  intros Hflag Hperm Hok.
  destruct (refreshData_ok apiInstalls apiDomains resolve4 resolveCname completion
              now fuel s installs Hflag Hperm Hok) as (dnsRes & -> & _).
  eexists. split; [reflexivity|].
  unfold buildSnapshot, allDomainsOf. cbn [Snapshot.sites Snapshot.stats].
  cbn [Stats.totalDomains Stats.issues Stats.pending Stats.customDomains Stats.good].
  split; [apply length_bind_domains|].
  split; [rewrite countStatus_bind_domains; by rewrite <- !list_fmap_compose|].
  split; [rewrite countStatus_bind_domains; by rewrite <- !list_fmap_compose|].
  split.
  - apply length_four_counts. intros d Hd. by eapply enriched_custom_statuses.
  - unfold customOf. apply length_filter.
Qed.

Lemma refresh_stats_consistent_witness :
  ∃ snap,
    (refreshData twoPageApi accountDomainsApi accountResolve4 accountResolveCname
                 (@rev _) "2024-01-05T00:00:00.000Z" 5 emptyState).1 = Ok snap
    ∧ Stats.issues (Snapshot.stats snap)
      = sumCounts (Site.issueCount <$> Snapshot.sites snap).
Proof.
  destruct (refresh_stats_consistent
              twoPageApi accountDomainsApi accountResolve4 accountResolveCname
              (@rev _) "2024-01-05T00:00:00.000Z" 5 emptyState [installA; installB])
    as (snap & Heq & _ & Hiss & _).
  - reflexivity.
  - intros l. symmetry. apply Permutation_rev.
  - exact account_listingOk.
  - exists snap. split; [exact Heq|exact Hiss].
Defined.

(** X16: in a refreshed snapshot a domain is flagged as system exactly when
    its name has a provider-internal suffix, and exactly then its verdict
    is system; every custom domain carries a DNS result; a DNS result that
    is attached is the lookup of a custom domain with the same id; and no
    domain carries a trace of an override. *)
Theorem refresh_domain_invariants
    apiInstalls apiDomains resolve4 resolveCname completion
    (now : string) (fuel : nat) (s : State) (installs : list Api.Install) :
  isRefreshing s = false →
  (∀ l, completion l ≡ₚ l) →
  listingOk apiInstalls apiDomains fuel installs →
  ∃ snap,
    (refreshData apiInstalls apiDomains resolve4 resolveCname completion now fuel s).1
    = Ok snap
    ∧ ∀ i j ed, domainAt (Some snap) i j = Some ed →
        EDomain.isSystem ed = isSystemName (EDomain.name ed)
        ∧ (EDomain.isSystem ed = true ↔ EDomain.status ed = "system")
        ∧ (EDomain.isSystem ed = false → is_Some (EDomain.dns ed))
        ∧ (∀ r, EDomain.dns ed = Some r →
             ∃ d', d' ∈ collectCustomDomains (domainListing apiDomains installs)
                   ∧ Api.id d' = EDomain.id ed
                   ∧ r = dnsLookup resolve4 resolveCname (Api.name d'))
        ∧ EDomain.status ed ≠ "confirmed"
        ∧ EDomain.originalStatus ed = None
        ∧ EDomain.originalDetail ed = None
        ∧ EDomain.confirmedAt ed = None.
Proof.
  intros Hflag Hperm Hok.
  destruct (refreshData_ok apiInstalls apiDomains resolve4 resolveCname completion
              now fuel s installs Hflag Hperm Hok) as (dnsRes & -> & Ha & Hb & _).
  eexists. split; [reflexivity|].
  intros i j ed (inst & doms & d & HL & Hj & ->)%domainAt_buildSnapshot.
  unfold enrichDomain.
  cbn [EDomain.isSystem EDomain.name EDomain.status EDomain.dns EDomain.id
       EDomain.originalStatus EDomain.originalDetail EDomain.confirmedAt].
  split; [done|].
  destruct (isSystemName (Api.name d)) eqn:Hsys.
  - rewrite (classify_system_name _ _ _ _ Hsys). simpl.
    split; [done|]. split; [done|]. split; [apply Ha|]. by repeat split.
  - pose proof (classify_custom_statuses d (dnsRes !! Api.id d) (Api.inst_cname inst)
                  (Some (buildDomainNames (domainListing apiDomains installs))) Hsys)
      as Hst.
    split.
    { split; [done|]. intros E. rewrite E in Hst.
      repeat (apply elem_of_cons in Hst as [Hst|Hst]; [discriminate Hst|]).
      by apply elem_of_nil in Hst. }
    split.
    { intros _. apply Hb. apply elem_of_collectCustomDomains. split; [done|].
      exists (inst, doms). split; [by eapply list_elem_of_lookup_2|].
      by eapply list_elem_of_lookup_2. }
    split; [apply Ha|]. split; [|done].
    intros E. rewrite E in Hst.
    repeat (apply elem_of_cons in Hst as [Hst|Hst]; [discriminate Hst|]).
    by apply elem_of_nil in Hst.
Qed.

Lemma refresh_domain_invariants_witness :
  ∃ snap,
    (refreshData twoPageApi accountDomainsApi accountResolve4 accountResolveCname
                 (@rev _) "2024-01-05T00:00:00.000Z" 5 emptyState).1 = Ok snap
    ∧ ∀ i j ed, domainAt (Some snap) i j = Some ed →
        (EDomain.isSystem ed = true ↔ EDomain.status ed = "system").
Proof.
  destruct (refresh_domain_invariants
              twoPageApi accountDomainsApi accountResolve4 accountResolveCname
              (@rev _) "2024-01-05T00:00:00.000Z" 5 emptyState [installA; installB])
    as (snap & Heq & H).
  - reflexivity.
  - intros l. symmetry. apply Permutation_rev.
  - exact account_listingOk.
  - exists snap. split; [exact Heq|]. intros i j ed Hed.
    exact (proj1 (proj2 (H i j ed Hed))).
Defined.

(** X17: cross-domain chaining through the whole refresh.  A custom domain
    declared ACTIVE one of whose resolved CNAMEs is the name of any domain
    listed for any install of the account is stored as good, "Active & DNS
    pointed" (entries sharing its id being taken to share its name). *)
Theorem refresh_cross_domain_chaining
    apiInstalls apiDomains resolve4 resolveCname completion
    (now : string) (fuel : nat) (s : State) (installs : list Api.Install)
    (i j : nat) (inst : Api.Install) (d : Api.Domain)
    (cs : list string) (c : string) :
  isRefreshing s = false →
  (∀ l, completion l ≡ₚ l) →
  listingOk apiInstalls apiDomains fuel installs →
  installs !! i = Some inst →
  fetchDomains apiDomains (Api.inst_id inst) !! j = Some d →
  isSystemName (Api.name d) = false →
  declaredStatusIs d "ACTIVE" →
  resolveCname (Api.name d) = Some cs →
  c ∈ cs →
  (∃ inst' d', inst' ∈ installs
               ∧ d' ∈ fetchDomains apiDomains (Api.inst_id inst')
               ∧ Api.name d' = c) →
  (∀ d', d' ∈ collectCustomDomains (domainListing apiDomains installs) →
         Api.id d' = Api.id d → Api.name d' = Api.name d) →
  ∃ snap,
    (refreshData apiInstalls apiDomains resolve4 resolveCname completion now fuel s).1
    = Ok snap
    ∧ classificationAt snap i j = Some ("good", "Active & DNS pointed").
Proof.
  intros Hflag Hperm Hok Hi Hj Hsys Hact Hcs Hc (inst' & d' & Hinst' & Hd' & Hname) Hid.
  destruct (refreshData_ok apiInstalls apiDomains resolve4 resolveCname completion
              now fuel s installs Hflag Hperm Hok) as (dnsRes & -> & _ & _ & Hres).
  eexists. split; [reflexivity|].
  rewrite classificationAt_domainAt.
  assert (domainAt (Some (buildSnapshot now installs
            (buildSite dnsRes (buildDomainNames (domainListing apiDomains installs))
               <$> domainListing apiDomains installs))) i j
          = Some (enrichDomain dnsRes
                    (buildDomainNames (domainListing apiDomains installs)) inst d)) as ->.
  { apply domainAt_buildSnapshot.
    exists inst, (fetchDomains apiDomains (Api.inst_id inst)), d.
    split; [by apply domainListing_lookup|done]. }
  cbn [fmap option_fmap option_map]. f_equal.
  unfold enrichDomain. cbn [EDomain.status EDomain.detail].
  rewrite Hres; [|apply elem_of_collectCustomDomains; split; [done|]|done].
  2:{ exists (inst, fetchDomains apiDomains (Api.inst_id inst)). split.
      - eapply list_elem_of_lookup_2. by apply domainListing_lookup.
      - by eapply list_elem_of_lookup_2. }
  set (r := dnsLookup resolve4 resolveCname (Api.name d)).
  assert (cnames r = cs) as Hcn by (unfold r; by rewrite dnsLookup_cnames, Hcs).
  assert (resolved r = true) as Hr.
  { apply dnsLookup_found_resolved. right. fold r. rewrite Hcn.
    intros ->. by apply not_elem_of_nil in Hc. }
  assert (dnsPointsToWPE (Some r) (Api.inst_cname inst)
            (Some (buildDomainNames (domainListing apiDomains installs))) = true) as Hm.
  { rewrite dnsPointsToWPE_bool, Hr. simpl. apply orb_true_iff. left.
    apply orb_true_iff. right.
    apply (index_true r (Some (buildDomainNames (domainListing apiDomains installs)))).
    exists c, (buildDomainNames (domainListing apiDomains installs)).
    split; [by rewrite Hcn|]. split; [done|].
    apply buildDomainNames_fold. right.
    exists (inst', fetchDomains apiDomains (Api.inst_id inst')), d'.
    split; [|done]. unfold domainListing. apply list_elem_of_fmap. by exists inst'. }
  unfold determineDomainStatus.
  rewrite Hsys, (declaredStatusIs_networkStatus _ _ Hact), Hm. reflexivity.
Qed.

(** [www.a.example.com] is a CNAME of [a.example.com], a domain of the
    same account. *)
Lemma refresh_cross_domain_chaining_witness :
  ∃ snap,
    (refreshData twoPageApi accountDomainsApi accountResolve4 accountResolveCname
                 (@rev _) "2024-01-05T00:00:00.000Z" 5 emptyState).1 = Ok snap
    ∧ classificationAt snap 0 2 = Some ("good", "Active & DNS pointed").
Proof.
  apply (refresh_cross_domain_chaining
           twoPageApi accountDomainsApi accountResolve4 accountResolveCname
           (@rev _) "2024-01-05T00:00:00.000Z" 5 emptyState [installA; installB]
           0 2 installA
           (mkDomain "www.a.example.com" "d-w" (Some "active") None None)
           ["a.example.com"] "a.example.com").
  - reflexivity.
  - intros l. symmetry. apply Permutation_rev.
  - exact account_listingOk.
  - reflexivity.
  - reflexivity.
  - reflexivity.
  - exists "active". split; reflexivity.
  - reflexivity.
  - by left.
  - exists installA, (mkDomain "a.example.com" "d-a" (Some "ACTIVE") None None).
    split; [by left|]. split; [|reflexivity].
    change (fetchDomains accountDomainsApi (Api.inst_id installA))
      with [mkDomain "shop.wpengine.com" "d-s" (Some "ACTIVE") None None;
            mkDomain "a.example.com" "d-a" (Some "ACTIVE") None None;
            mkDomain "www.a.example.com" "d-w" (Some "active") None None].
    right. by left.
  - intros d' Hd' Hid.
    assert (collectCustomDomains (domainListing accountDomainsApi [installA; installB])
            = [mkDomain "a.example.com" "d-a" (Some "ACTIVE") None None;
               mkDomain "www.a.example.com" "d-w" (Some "active") None None]) as E
      by reflexivity.
    rewrite E in Hd'.
    apply elem_of_cons in Hd' as [->|Hd']; [discriminate Hid|].
    apply elem_of_cons in Hd' as [->|Hd']; [reflexivity|].
    by apply elem_of_nil in Hd'.
Defined.

(** ** Projection through the override store *)

Lemma overrideDomain_fields (m : Store) (d : EDomain.t) :
  EDomain.name (overrideDomain m d) = EDomain.name d
  ∧ EDomain.id (overrideDomain m d) = EDomain.id d
  ∧ EDomain.isSystem (overrideDomain m d) = EDomain.isSystem d
  ∧ EDomain.dns (overrideDomain m d) = EDomain.dns d.
Proof.
  unfold overrideDomain.
  destruct (String.eqb _ _); [|done].
  by destruct (valueTruthy (storeGet m (EDomain.name d))).
Qed.

Lemma overrideDomain_idem (m : Store) (d : EDomain.t) :
  overrideDomain m (overrideDomain m d) = overrideDomain m d.
Proof.
  unfold overrideDomain.
  destruct (String.eqb (EDomain.status d) "issue") eqn:E;
    [destruct (valueTruthy (storeGet m (EDomain.name d))) eqn:Hm|];
    simpl; rewrite ?E, ?Hm; reflexivity.
Qed.

Lemma fmap_idem {A} (f : A → A) (l : list A) :
  (∀ x, f (f x) = f x) → f <$> (f <$> l) = f <$> l.
Proof.
  intros Hf. induction l as [|x l IH]; [done|].
  cbn [fmap list_fmap]. f_equal; [apply Hf|apply IH].
Qed.

Lemma overrideSite_idem (m : Store) (site : Site.t) :
  overrideSite m (overrideSite m site) = overrideSite m site.
Proof.
  unfold overrideSite. cbn [Site.domains Site.name Site.id Site.environment
    Site.primary_domain Site.cname Site.php_version Site.pendingCount].
  by rewrite (fmap_idem _ _ (overrideDomain_idem m)).
Qed.

(** X18: the projection is idempotent: projecting a projected snapshot
    through the same store changes nothing, so it is safe to serve a
    snapshot that was already projected. *)
Theorem applyConfirmedOverrides_idempotent (m : Store)
    (data : option Snapshot.t) :
  applyConfirmedOverrides m (applyConfirmedOverrides m data)
  = applyConfirmedOverrides m data.
Proof.
  destruct data as [snap|]; [|done].
  unfold applyConfirmedOverrides.
  cbn [Snapshot.sites Snapshot.stats Stats.totalSites Stats.totalDomains
       Stats.customDomains Stats.timestamp].
  by rewrite (fmap_idem _ _ (overrideSite_idem m)).
Qed.

Lemma customOf_override (m : Store) (l : list EDomain.t) :
  customOf (overrideDomain m <$> l) = overrideDomain m <$> customOf l.
Proof.
  unfold customOf. induction l as [|d l IH]; [done|].
  cbn [fmap list_fmap]. rewrite !filter_cons.
  destruct (overrideDomain_fields m d) as (_ & _ & Hs & _). rewrite Hs.
  case_decide; [cbn [fmap list_fmap]; by f_equal|done].
Qed.

Lemma override_bind_domains (m : Store) (ss : list Site.t) :
  (site ← overrideSite m <$> ss; Site.domains site)
  = overrideDomain m <$> (site ← ss; Site.domains site).
Proof.
  induction ss as [|x ss IH]; [done|].
  cbn [fmap list_fmap mbind list_bind]. rewrite IH, fmap_app. reflexivity.
Qed.

Lemma overrideDomain_status (m : Store) (d : EDomain.t) :
  EDomain.status (overrideDomain m d) = EDomain.status d
  ∨ (EDomain.status d = "issue" ∧ EDomain.status (overrideDomain m d) = "confirmed").
Proof.
  unfold overrideDomain.
  destruct (String.eqb_spec (EDomain.status d) "issue") as [E|E]; [|by left].
  destruct (valueTruthy (storeGet m (EDomain.name d))); [by right|by left].
Qed.

Lemma countStatus_override (m : Store) (l : list EDomain.t) :
  countStatus "good" (overrideDomain m <$> l) = countStatus "good" l
  ∧ countStatus "pending" (overrideDomain m <$> l) = countStatus "pending" l
  ∧ (countStatus "issue" (overrideDomain m <$> l)
     + countStatus "confirmed" (overrideDomain m <$> l)
     = countStatus "issue" l + countStatus "confirmed" l)%nat
  ∧ (countStatus "issue" (overrideDomain m <$> l) ≤ countStatus "issue" l)%nat.
Proof.
  induction l as [|d l (IH1 & IH2 & IH3 & IH4)]; [done|].
  cbn [fmap list_fmap]. rewrite !countStatus_cons, IH1, IH2.
  destruct (overrideDomain_status m d) as [->|[E ->]].
  - repeat split; lia.
  - rewrite E. simpl. repeat split; lia.
Qed.

(** X19: confirming moves domains from the issue count to the confirmed
    count and touches nothing else: in the projection the good and pending
    counts are those of the stored domains, issues and confirmed together
    are the stored issues and confirmed together, the issue count never
    grows, and the site, domain and custom-domain totals and the timestamp
    are the stored ones. *)
Theorem projection_counts (m : Store) (snap : Snapshot.t) :
  ∃ p, applyConfirmedOverrides m (Some snap) = Some p
    ∧ let stored := customOf (allDomainsOf snap) in
      Stats.good (Snapshot.stats p) = countStatus "good" stored
      ∧ Stats.pending (Snapshot.stats p) = countStatus "pending" stored
      ∧ (Stats.issues (Snapshot.stats p) + default 0 (Stats.confirmed (Snapshot.stats p))
         = countStatus "issue" stored + countStatus "confirmed" stored)%nat
      ∧ (Stats.issues (Snapshot.stats p) ≤ countStatus "issue" stored)%nat
      ∧ Stats.totalSites (Snapshot.stats p) = Stats.totalSites (Snapshot.stats snap)
      ∧ Stats.totalDomains (Snapshot.stats p) = Stats.totalDomains (Snapshot.stats snap)
      ∧ Stats.customDomains (Snapshot.stats p) = Stats.customDomains (Snapshot.stats snap)
      ∧ Stats.timestamp (Snapshot.stats p) = Stats.timestamp (Snapshot.stats snap)
      ∧ length (Snapshot.sites p) = length (Snapshot.sites snap).
Proof.
  eexists. split; [reflexivity|].
  cbn [Snapshot.stats Snapshot.sites Stats.good Stats.pending Stats.issues
       Stats.confirmed Stats.totalSites Stats.totalDomains Stats.customDomains
       Stats.timestamp default]. cbv zeta.
  unfold allDomainsOf. rewrite override_bind_domains, customOf_override.
  destruct (countStatus_override m
              (customOf (site ← Snapshot.sites snap; Site.domains site)))
    as (H1 & H2 & H3 & H4).
  repeat split; try done. by rewrite length_fmap.
Qed.

Lemma inheritedFromObject_truthy (key : string) :
  valueTruthy (inheritedFromObject key) = true ↔ key ∈ objectPrototypeKeys.
Proof.
  unfold inheritedFromObject. rewrite <- includes_true.
  by destruct (Js.includes objectPrototypeKeys key).
Qed.

(** X20: the projection keeps the shape of the snapshot and rewrites only
    the issue domains for whose name a read of the store object gives a
    truthy value: at every position the projected domain has the name, id,
    system flag and DNS result of the stored one; it differs from the
    stored one only if that one is such an issue, and then it is served as
    confirmed with the [confirmedAt] of the value read, if it has one; it
    is the stored one otherwise.  Where the store has no entry for the
    name and its prototype is untouched, the read is truthy exactly for
    the names of the members of [Object.prototype]: an issue domain named
    "constructor" is served as confirmed without having been confirmed,
    and a domain with any other name is served as stored. *)
Theorem projection_rewrites_only_confirmed_issues (m : Store)
    (snap : Snapshot.t) (i j : nat) (d : EDomain.t) :
  domainAt (Some snap) i j = Some d →
  ∃ d', domainAt (applyConfirmedOverrides m (Some snap)) i j = Some d'
    ∧ EDomain.name d' = EDomain.name d
    ∧ EDomain.id d' = EDomain.id d
    ∧ EDomain.isSystem d' = EDomain.isSystem d
    ∧ EDomain.dns d' = EDomain.dns d
    ∧ (d' ≠ d → EDomain.status d = "issue"
                ∧ valueTruthy (storeGet m (EDomain.name d)) = true)
    ∧ (EDomain.status d ≠ "issue"
       ∨ valueTruthy (storeGet m (EDomain.name d)) = false → d' = d)
    ∧ (EDomain.status d = "issue" →
       valueTruthy (storeGet m (EDomain.name d)) = true →
       EDomain.status d' = "confirmed"
       ∧ EDomain.originalDetail d' = Some (EDomain.detail d)
       ∧ EDomain.confirmedAt d' = valueConfirmedAt (storeGet m (EDomain.name d)))
    ∧ (entries m !! EDomain.name d = None → prototype m = None →
       (valueTruthy (storeGet m (EDomain.name d)) = true
        ↔ EDomain.name d ∈ "__proto__" :: objectPrototypeKeys)).
Proof.
  intros Hd. rewrite domainAt_project, Hd. cbn [fmap option_fmap option_map].
  eexists. split; [reflexivity|].
  destruct (overrideDomain_fields m d) as (H1 & H2 & H3 & H4).
  do 4 (split; [done|]).
  split; [|split; [|split]].
  - unfold overrideDomain.
    destruct (String.eqb_spec (EDomain.status d) "issue") as [E|E]; [|done].
    by destruct (valueTruthy (storeGet m (EDomain.name d))).
  - unfold overrideDomain.
    destruct (String.eqb_spec (EDomain.status d) "issue") as [E|E]; [|done].
    destruct (valueTruthy (storeGet m (EDomain.name d))); [|done].
    by intros [?|?].
  - intros Hst Hm.
    destruct (overrideDomain_confirmed m d Hst Hm) as (Ha & _ & Hb & Hc & _).
    done.
  - intros Hown Hproto. unfold storeGet, storeInherited.
    rewrite Hown, Hproto, elem_of_cons, <- inheritedFromObject_truthy.
    destruct (String.eqb_spec (EDomain.name d) "__proto__") as [E|E].
    + split; [by left|done].
    + split; [by right|]. by intros [?|?].
Qed.

Lemma projection_rewrites_only_confirmed_issues_witness :
  domainAt (applyConfirmedOverrides ∅ (Some (snapshotOf (issueDomain "b.example.com"))))
           0 0
  = Some (issueDomain "b.example.com").
Proof.
  destruct (projection_rewrites_only_confirmed_issues
              ∅ (snapshotOf (issueDomain "b.example.com")) 0 0
              (issueDomain "b.example.com"))
    as (d' & Hd' & _ & _ & _ & _ & _ & Hsame & _); [reflexivity|].
  rewrite Hd'. f_equal. apply Hsame. right. reflexivity.
Defined.

(** ** Override store: how the two requests compose *)

Lemma storeSet_comm (st : Store) (x y : string) (vx vy : Override) :
  x ≠ y → storeSet (storeSet st x vx) y vy = storeSet (storeSet st y vy) x vx.
Proof.
  intros Hxy. unfold storeSet.
  destruct (entries st !! x) as [ox|] eqn:Ex;
    destruct (entries st !! y) as [oy|] eqn:Ey;
    destruct (String.eqb_spec x "__proto__") as [Px|Px];
    destruct (String.eqb_spec y "__proto__") as [Py|Py];
    try congruence;
    cbn [entries prototype];
    rewrite ?lookup_insert_ne by done; rewrite ?Ex, ?Ey;
    cbn [entries prototype];
    f_equal; by apply insert_insert_ne.
Qed.

Lemma storeDelete_storeSet_ne (st : Store) (x y : string) (v : Override) :
  x ≠ y → storeDelete (storeSet st x v) y = storeSet (storeDelete st y) x v.
Proof.
  intros Hxy. unfold storeDelete, storeSet. cbn [entries prototype].
  rewrite lookup_delete_ne by done.
  destruct (entries st !! x) as [ox|] eqn:Ex;
    [|destruct (String.eqb x "__proto__")];
    cbn [entries prototype]; f_equal; by rewrite ?delete_insert_ne.
Qed.

(** X21: for a non-empty name, a confirm followed by an unconfirm leaves
    the own entries of the store as they were, without the name (an
    earlier timestamp is not restored), and the entries of the other names
    untouched.  For a name other than "__proto__" the prototype of the
    store is untouched, a read of the name then gives what the prototype
    chain has under it, and the state is the one before the two requests
    when the name had no entry.  For the name "__proto__", when it is not
    an own entry, the confirm replaces the prototype of the store and the
    unconfirm does not undo it: a read of the name still gives the entry
    of the confirm. *)
Theorem confirm_then_unconfirm (x t : string) (s : State) :
  x ≠ "" →
  let s1 := (post_confirm t (Some x) s).2 in
  let s2 := (delete_confirm (Some x) s1).2 in
  entries (confirmedDomains s2) = delete x (entries (confirmedDomains s))
  ∧ (x ≠ "__proto__" →
     prototype (confirmedDomains s2) = prototype (confirmedDomains s)
     ∧ storeGet (confirmedDomains s2) x = storeInherited (confirmedDomains s) x
     ∧ (entries (confirmedDomains s) !! x = None → s2 = s))
  ∧ (x = "__proto__" → entries (confirmedDomains s) !! x = None →
     prototype (confirmedDomains s2) = Some {| confirmedAt := t |}
     ∧ storeGet (confirmedDomains s2) x = Some (VEntry {| confirmedAt := t |}))
  ∧ (∀ y, y ≠ x →
       entries (confirmedDomains s1) !! y = entries (confirmedDomains s) !! y
       ∧ entries (confirmedDomains s2) !! y = entries (confirmedDomains s) !! y).
Proof.
  intros Hx s1 s2. subst s1 s2.
  rewrite (post_confirm_accepted _ _ _ Hx). cbn [snd].
  rewrite (delete_confirm_accepted _ _ Hx). cbn [snd].
  unfold setConfirmed. cbn [cachedData isRefreshing refreshProgress confirmedDomains].
  split; [apply entries_storeDelete_storeSet|]. split; [|split].
  - intros Hp. split; [|split].
    + unfold storeDelete. cbn [prototype]. by apply prototype_storeSet.
    + rewrite storeGet_storeDelete. by apply storeInherited_storeSet.
    + intros Habs.
      assert (storeDelete (storeSet (confirmedDomains s) x {| confirmedAt := t |}) x
              = confirmedDomains s) as ->; [|by destruct s].
      unfold storeDelete. rewrite (prototype_storeSet _ _ _ Hp).
      rewrite entries_storeSet by (by left).
      rewrite delete_insert_eq, (delete_id _ _ Habs). by destruct (confirmedDomains s).
  - intros -> Habs. rewrite (storeSet_proto _ _ Habs).
    unfold storeGet, storeDelete, storeInherited. cbn [entries prototype].
    by rewrite lookup_delete_eq.
  - intros y Hy. unfold storeDelete. cbn [entries].
    by rewrite lookup_delete_ne, entries_storeSet_ne.
Qed.

Lemma confirm_then_unconfirm_witness :
  (delete_confirm (Some "a.example.com")
     (post_confirm "2024-01-03T00:00:00.000Z" (Some "a.example.com") emptyState).2).2
  = emptyState.
Proof.
  destruct (confirm_then_unconfirm "a.example.com" "2024-01-03T00:00:00.000Z" emptyState)
    as (_ & H & _); [discriminate|].
  destruct H as (_ & _ & H); [discriminate|].
  apply H. reflexivity.
Defined.

(** X22: requests for different names do not interfere: two confirms, a
    confirm and an unconfirm, or two unconfirms of different names leave
    the same state in either order; and a repeated unconfirm leaves the
    state of a single one. *)
Theorem confirm_requests_commute (x y tx ty : string) (s : State) :
  x ≠ "" → y ≠ "" → x ≠ y →
  (post_confirm ty (Some y) (post_confirm tx (Some x) s).2).2
  = (post_confirm tx (Some x) (post_confirm ty (Some y) s).2).2
  ∧ (delete_confirm (Some y) (post_confirm tx (Some x) s).2).2
    = (post_confirm tx (Some x) (delete_confirm (Some y) s).2).2
  ∧ (delete_confirm (Some y) (delete_confirm (Some x) s).2).2
    = (delete_confirm (Some x) (delete_confirm (Some y) s).2).2
  ∧ (delete_confirm (Some x) (delete_confirm (Some x) s).2).2
    = (delete_confirm (Some x) s).2.
Proof.
  intros Hx Hy Hxy.
  repeat (progress (rewrite ?(post_confirm_accepted _ _ _ Hx),
                            ?(post_confirm_accepted _ _ _ Hy),
                            ?(delete_confirm_accepted _ _ Hx),
                            ?(delete_confirm_accepted _ _ Hy); cbn [snd])).
  unfold setConfirmed.
  cbn [cachedData isRefreshing refreshProgress confirmedDomains].
  repeat split; f_equal.
  - by apply storeSet_comm.
  - by apply storeDelete_storeSet_ne.
  - unfold storeDelete. cbn [entries prototype]. f_equal. apply delete_delete.
  - unfold storeDelete. cbn [entries prototype]. f_equal. apply delete_delete_eq.
Qed.

Lemma confirm_requests_commute_witness :
  (post_confirm "2024-01-04T00:00:00.000Z" (Some "b.example.com")
     (post_confirm "2024-01-03T00:00:00.000Z" (Some "a.example.com") emptyState).2).2
  = (post_confirm "2024-01-03T00:00:00.000Z" (Some "a.example.com")
       (post_confirm "2024-01-04T00:00:00.000Z" (Some "b.example.com") emptyState).2).2.
Proof.
  destruct (confirm_requests_commute "a.example.com" "b.example.com"
              "2024-01-03T00:00:00.000Z" "2024-01-04T00:00:00.000Z" emptyState)
    as (H & _); [discriminate|discriminate|discriminate|exact H].
Defined.

(** ** Single-flight guard: further invariants of the turns *)

Lemma runningCount_pos (l : list Task) :
  (0 < runningCount l)%nat ↔ ∃ i, l !! i = Some Running.
Proof.
  induction l as [|t l IH].
  - split; [unfold runningCount; simpl; lia|by intros [? ?]].
  - rewrite runningCount_cons. split.
    + destruct t; simpl; [intros _; by exists 0%nat| |];
        intros [i Hi]%IH; by exists (S i).
    + intros [[|i] Hi]; simpl in Hi.
      * injection Hi as ->. simpl. lia.
      * assert (0 < runningCount l)%nat by (apply IH; by exists i). lia.
Qed.

Lemma step_settled_stable (ev : Event) (σ σ' : Sys) (i : nat)
    (r : Settled (option Snapshot.t)) :
  tasks σ !! i = Some (Settledwith r) → step ev σ = Some σ' →
  tasks σ' !! i = Some (Settledwith r).
Proof.
  intros Hi Hstep. destruct ev as [|k snap|k e|k]; simpl in Hstep.
  - destruct (isRefreshing (vars σ)); injection Hstep as <-; simpl;
      by apply lookup_app_l_Some.
  - destruct (tasks σ !! k) as [[| |?]|] eqn:Hk; try done.
    injection Hstep as <-. simpl. rewrite list_lookup_insert_ne; [done|].
    intros ->. congruence.
  - destruct (tasks σ !! k) as [[| |?]|] eqn:Hk; try done.
    injection Hstep as <-. simpl. rewrite list_lookup_insert_ne; [done|].
    intros ->. congruence.
  - destruct (tasks σ !! k) as [[| |?]|] eqn:Hk; try done.
    destruct (isRefreshing (vars σ)); injection Hstep as <-; [done|]. simpl.
    rewrite list_lookup_insert_ne; [done|]. intros ->. congruence.
Qed.

Lemma step_waiting (ev : Event) (σ σ' : Sys) (i : nat) :
  tasks σ !! i = Some Waiting → step ev σ = Some σ' →
  tasks σ' !! i = Some Waiting
  ∨ ∃ c, tasks σ' !! i = Some (Settledwith (Fulfilled c)).
Proof.
  intros Hi Hstep. destruct ev as [|k snap|k e|k]; simpl in Hstep.
  - left. destruct (isRefreshing (vars σ)); injection Hstep as <-; simpl;
      by apply lookup_app_l_Some.
  - left. destruct (tasks σ !! k) as [[| |?]|] eqn:Hk; try done.
    injection Hstep as <-. simpl. rewrite list_lookup_insert_ne; [done|].
    intros ->. congruence.
  - left. destruct (tasks σ !! k) as [[| |?]|] eqn:Hk; try done.
    injection Hstep as <-. simpl. rewrite list_lookup_insert_ne; [done|].
    intros ->. congruence.
  - destruct (tasks σ !! k) as [[| |?]|] eqn:Hk; try done.
    destruct (isRefreshing (vars σ)); injection Hstep as <-; [by left|]. simpl.
    destruct (decide (k = i)) as [->|Hne].
    + right. eexists. apply list_lookup_insert_eq. by eapply lookup_lt_Some.
    + left. by rewrite list_lookup_insert_ne.
Qed.

Lemma run_settled_stable (evs : list Event) :
  ∀ σ σ' i r, run evs σ = Some σ' → tasks σ !! i = Some (Settledwith r) →
              tasks σ' !! i = Some (Settledwith r).
Proof.
  induction evs as [|ev evs IH]; intros σ σ' i r Hrun Hi; simpl in Hrun.
  - by injection Hrun as <-.
  - destruct (step ev σ) as [σ1|] eqn:Hstep; [|done].
    eapply IH; [exact Hrun|]. by eapply step_settled_stable.
Qed.

(** X23: along every schedule from a state without a refresh in flight,
    the flag [isRefreshing] is up exactly while some call is running the
    pipeline, so a run that throws never leaves the guard locked: as soon
    as the flag is down, the next call starts a new run. *)
Theorem guard_flag_iff_running (s : State) (evs : list Event) (σ : Sys) :
  isRefreshing s = false →
  run evs (boot s) = Some σ →
  (isRefreshing (vars σ) = true ↔ ∃ i, tasks σ !! i = Some Running)
  ∧ (isRefreshing (vars σ) = false →
     ∃ σ', step Call σ = Some σ'
           ∧ tasks σ' = (tasks σ ++ [Running])%list
           ∧ pipelinesStarted σ' = S (pipelinesStarted σ)).
Proof.
  intros Hf Hrun.
  assert (guardInv σ) as Hinv.
  { eapply run_guardInv; [|exact Hrun]. unfold guardInv. simpl. by rewrite Hf. }
  unfold guardInv in Hinv. split.
  - rewrite <- runningCount_pos. destruct (isRefreshing (vars σ)); split; try done; lia.
  - intros Hflag. simpl. rewrite Hflag. eexists. by repeat split.
Qed.

Lemma guard_flag_iff_running_witness :
  ∃ σ, run [Call; PipelineFail 0 "API 502"; Call] (boot emptyState) = Some σ
       ∧ isRefreshing (vars σ) = true
       ∧ tasks σ !! 1%nat = Some Running.
Proof.
  eexists. split; [reflexivity|].
  destruct (guard_flag_iff_running emptyState
              [Call; PipelineFail 0 "API 502"; Call] _ eq_refl eq_refl) as [H _].
  split; [|reflexivity]. apply H. by exists 1%nat.
Defined.

(** X25: [cachedData] is written by the successful end of a run only:
    along a schedule without one (calls, polls, runs that throw) the
    stored snapshot stays the same, and the override store stays the same
    along every schedule. *)
Theorem cachedData_written_only_by_success (evs : list Event) (σ σ' : Sys) :
  run evs σ = Some σ' →
  confirmedDomains (vars σ') = confirmedDomains (vars σ)
  ∧ (noPipelineOk evs → cachedData (vars σ') = cachedData (vars σ)).
Proof.
  unfold noPipelineOk. revert σ.
  induction evs as [|ev evs IH]; intros σ Hrun; simpl in Hrun.
  - by injection Hrun as <-.
  - destruct (step ev σ) as [σ1|] eqn:Hstep; [|done].
    destruct (IH σ1 Hrun) as [IH1 IH2].
    assert (confirmedDomains (vars σ1) = confirmedDomains (vars σ)
            ∧ (match ev with PipelineOk _ _ => false | _ => true end = true →
               cachedData (vars σ1) = cachedData (vars σ))) as [H1 H2].
    { destruct ev as [|k snap|k e|k]; simpl in Hstep.
      - destruct (isRefreshing (vars σ)); by injection Hstep as <-.
      - destruct (tasks σ !! k) as [[| |?]|]; try done. by injection Hstep as <-.
      - destruct (tasks σ !! k) as [[| |?]|]; try done. by injection Hstep as <-.
      - destruct (tasks σ !! k) as [[| |?]|]; try done.
        destruct (isRefreshing (vars σ)); by injection Hstep as <-. }
    split; [congruence|]. simpl. intros [He Hno]%andb_true_iff.
    rewrite IH2, H2; done.
Qed.

Lemma cachedData_written_only_by_success_witness :
  ∃ σ', run [Call; Call; PipelineFail 0 "API 502"; Tick 1]
            (boot (servingState (issueDomain "b.example.com"))) = Some σ'
        ∧ cachedData (vars σ') = Some (snapshotOf (issueDomain "b.example.com")).
Proof.
  eexists. split; [reflexivity|].
  destruct (cachedData_written_only_by_success
              [Call; Call; PipelineFail 0 "API 502"; Tick 1]
              (boot (servingState (issueDomain "b.example.com"))) _ eq_refl)
    as [_ H].
  rewrite H; reflexivity.
Defined.

(** X26: a call that waits is never handed an error: whenever it settles,
    it settles with a value, the [cachedData] of that moment, whatever
    happened to the run it waited for. *)
Theorem waiter_never_rejected (evs : list Event) (σ σ' : Sys) (i : nat)
    (r : Settled (option Snapshot.t)) :
  run evs σ = Some σ' →
  tasks σ !! i = Some Waiting →
  tasks σ' !! i = Some (Settledwith r) →
  ∃ c, r = Fulfilled c.
Proof.
  revert σ. induction evs as [|ev evs IH]; intros σ Hrun Hi Hr; simpl in Hrun.
  - injection Hrun as <-. congruence.
  - destruct (step ev σ) as [σ1|] eqn:Hstep; [|done].
    destruct (step_waiting ev σ σ1 i Hi Hstep) as [Hw|[c Hc]].
    + by eapply IH.
    + pose proof (run_settled_stable evs σ1 σ' i _ Hrun Hc) as Hc'.
      exists c. congruence.
Qed.

Lemma waiter_never_rejected_witness :
  ∃ σ' c,
    run [Call; Call; PipelineFail 0 "API 502"; Tick 1] (boot emptyState) = Some σ'
    ∧ tasks σ' !! 1%nat = Some (Settledwith (Fulfilled c)).
Proof.
  eexists _, None. split; [reflexivity|].
  destruct (waiter_never_rejected [PipelineFail 0 "API 502"; Tick 1]
              {| vars := setVars None true "Fetching installs..." emptyState;
                 tasks := [Running; Waiting]; pipelinesStarted := 1 |}
              _ 1 (Fulfilled None) eq_refl eq_refl eq_refl) as [c Hc].
  reflexivity.
Defined.

(** ** Handlers: what the endpoints report around a refresh *)

(** X27: [GET /api/refresh] answers a successful refresh with the
    projection of the new snapshot, which is what [GET /api/data] serves
    from then on, and [GET /api/status] then reports no refresh, an empty
    progress message and data; it answers a failed listing with the
    message of the error, after which the status reports no refresh but
    still shows the progress message "Fetching installs...", and has data
    exactly if it had before. *)
Theorem api_refresh_then_status
    apiInstalls apiDomains resolve4 resolveCname completion
    (now : string) (fuel : nat) (s : State) :
  isRefreshing s = false →
  (∀ l, completion l ≡ₚ l) →
  let out := get_api_refresh apiInstalls apiDomains resolve4 resolveCname
                             completion now fuel s in
  (∀ installs, listingOk apiInstalls apiDomains fuel installs →
     ∃ p, out.1 = RefreshJson (Some p)
          ∧ (get_api_data out.2).1
            = {| body_sites := Snapshot.sites p;
                 body_stats := Some (Snapshot.stats p) |}
          ∧ get_api_status out.2
            = {| refreshing := false; progress_message := ""; hasData := true |})
  ∧ (∀ k e, listingFailsAt apiInstalls k e → (k < fuel)%nat →
       out.1 = RefreshError e
       ∧ get_api_status out.2
         = {| refreshing := false; progress_message := "Fetching installs...";
              hasData := hasData (get_api_status s) |}
       ∧ (get_api_data out.2).1 = (get_api_data s).1).
Proof.
  intros Hflag Hperm out. subst out. unfold get_api_refresh. split.
  - intros installs Hok.
    destruct (refreshData_ok apiInstalls apiDomains resolve4 resolveCname completion
                now fuel s installs Hflag Hperm Hok) as (dnsRes & -> & _).
    eexists. split; [reflexivity|]. split; reflexivity.
  - intros k e Hfail Hfuel. unfold refreshData, pipeline.
    rewrite Hflag, (fetchAllInstalls_throws _ _ _ _ Hfail Hfuel).
    cbn [fst snd]. split; [done|]. split; [done|].
    unfold get_api_data. cbn [cachedData confirmedDomains].
    by destruct (cachedData s).
Qed.

Lemma api_refresh_then_status_witness :
  get_api_status
    (get_api_refresh brokenApi cDomainsApi deadResolver deadResolver (fun l => l)
                     "2024-01-02T00:00:00.000Z" 3
                     (servingState (issueDomain "b.example.com"))).2
  = {| refreshing := false; progress_message := "Fetching installs...";
       hasData := true |}.
Proof.
  destruct (api_refresh_then_status brokenApi cDomainsApi deadResolver deadResolver
              (fun l => l) "2024-01-02T00:00:00.000Z" 3
              (servingState (issueDomain "b.example.com")) eq_refl ltac:(done))
    as [_ H].
  destruct (H 1%nat "API 502 on /installs?limit=100&offset=100") as (_ & Hst & _).
  - split; [|reflexivity].
    intros j Hj. assert (j = 0)%nat as -> by lia. eexists. split; reflexivity.
  - lia.
  - exact Hst.
Defined.

(** ** Dashboard script *)

Lemma list_ascii_app (a b : string) :
  list_ascii_of_string (a +:+ b)
  = (list_ascii_of_string a ++ list_ascii_of_string b)%list.
Proof. induction a as [|c a IH]; [done|]. simpl. by rewrite <- IH. Qed.

Lemma replaceAll_chars (c : ascii) (rep s : string) (a : ascii) :
  a ∈ list_ascii_of_string (Page.replaceAll c rep s) →
  a ∈ list_ascii_of_string rep ∨ (a ∈ list_ascii_of_string s ∧ a ≠ c).
Proof.
  induction s as [|x s IH]; cbn [Page.replaceAll].
  - intros H. by apply elem_of_nil in H.
  - rewrite list_ascii_app, elem_of_app.
    destruct (Ascii.eqb_spec x c) as [->|Hne].
    + intros [?|[?|[? ?]]%IH]; [by left|by left|].
      right. split; [|done]. simpl. by right.
    + simpl. intros [[->|H]%elem_of_cons|[?|[? ?]]%IH].
      * right. split; [by left|done].
      * by apply elem_of_nil in H.
      * by left.
      * right. split; [by right|done].
Qed.

Lemma replaceAll_absent (c : ascii) (rep s : string) :
  c ∉ list_ascii_of_string s → Page.replaceAll c rep s = s.
Proof.
  induction s as [|x s IH]; [done|]. simpl. intros H.
  apply not_elem_of_cons in H as [Hx Hs].
  destruct (Ascii.eqb_spec x c) as [->|_]; [done|].
  simpl. by rewrite (IH Hs).
Qed.

(** X28: the text [esc] returns contains neither [<] nor [>]; a text
    without [&], [<] and [>] is returned as it is (quotes included); and a
    missing or empty text gives the empty text. *)
Theorem esc_output (s : string) :
  ("<"%char ∉ list_ascii_of_string (Page.esc (Some s)))
  ∧ (">"%char ∉ list_ascii_of_string (Page.esc (Some s)))
  ∧ ((∀ c, c ∈ ["&"; "<"; ">"]%char → c ∉ list_ascii_of_string s) →
     Page.esc (Some s) = s)
  ∧ Page.esc None = "" ∧ Page.esc (Some "") = "".
Proof.
  destruct s as [|a s]; [by repeat split; try apply not_elem_of_nil|].
  unfold Page.esc. change (Js.truthy (Some (String a s))) with true. cbv iota.
  split; [|split; [|split; [|done]]].
  - intros [H|[[H|[H Hne]]%replaceAll_chars Hgt]]%replaceAll_chars.
    + simpl in H. repeat (apply elem_of_cons in H as [H|H]; [discriminate H|]).
      by apply elem_of_nil in H.
    + simpl in H. repeat (apply elem_of_cons in H as [H|H]; [discriminate H|]).
      by apply elem_of_nil in H.
    + done.
  - intros [H|[_ Hne]]%replaceAll_chars; [|done].
    simpl in H. repeat (apply elem_of_cons in H as [H|H]; [discriminate H|]).
    by apply elem_of_nil in H.
  - intros Hnone.
    rewrite (replaceAll_absent "&"); [|apply Hnone; set_solver].
    rewrite (replaceAll_absent "<"); [|apply Hnone; set_solver].
    rewrite (replaceAll_absent ">"); [|apply Hnone; set_solver]. done.
Qed.

(** X29: the filter buttons of the page.  Whatever the search text, a site
    is listed under "all" exactly when it is listed under "issues",
    "confirmed" or "good"; "good" excludes both others; a site listed
    under any filter is listed under "all"; and a filter value that is
    none of "all", "issues", "confirmed" acts as "good". *)
Theorem siteShown_filters (f q : string) (site : Site.t) :
  Page.siteShown "all" q site
  = (Page.siteShown "issues" q site || Page.siteShown "confirmed" q site
     || Page.siteShown "good" q site)
  ∧ (Page.siteShown "good" q site && Page.siteShown "issues" q site) = false
  ∧ (Page.siteShown "good" q site && Page.siteShown "confirmed" q site) = false
  ∧ (Page.siteShown f q site = true → Page.siteShown "all" q site = true)
  ∧ (f ∉ ["all"; "issues"; "confirmed"] →
     Page.siteShown f q site = Page.siteShown "good" q site).
Proof.
  unfold Page.siteShown.
  destruct (negb (String.eqb (Page.toLowerCase q) "") && _).
  { repeat split; done. }
  change (String.eqb "all" "all") with true.
  change (String.eqb "issues" "all") with false.
  change (String.eqb "issues" "issues") with true.
  change (String.eqb "confirmed" "all") with false.
  change (String.eqb "confirmed" "issues") with false.
  change (String.eqb "confirmed" "confirmed") with true.
  change (String.eqb "good" "all") with false.
  change (String.eqb "good" "issues") with false.
  change (String.eqb "good" "confirmed") with false.
  cbv iota.
  split; [|split; [|split; [|split]]].
  - destruct (Site.issueCount site), (Page.confirmedOrZero site); reflexivity.
  - destruct (Site.issueCount site), (Page.confirmedOrZero site); reflexivity.
  - destruct (Site.issueCount site), (Page.confirmedOrZero site); reflexivity.
  - done.
  - intros Hf.
    destruct (String.eqb_spec f "all") as [->|_]; [set_solver|].
    destruct (String.eqb_spec f "issues") as [->|_]; [set_solver|].
    destruct (String.eqb_spec f "confirmed") as [->|_]; [set_solver|]. done.
Qed.

(** ** Fingerprint match on the results the verifier produces *)

(** X6: on the result of a lookup the fingerprint match is the plain OR of
    its four conditions (the guard on the [resolved] flag never decides,
    the flag being set whenever a list is non-empty); a lookup that failed
    for both record types never matches, and neither does a missing DNS
    result. *)
Theorem fingerprint_of_lookup
    (resolve4 resolveCname : string -> option (list string)) (domain : string)
    (installCname : option string) (allDomainNames : option (gset string)) :
  let r := dnsLookup resolve4 resolveCname domain in
  (dnsPointsToWPE (Some r) installCname allDomainNames = true
   ↔ matchesProviderSpec r installCname allDomainNames)
  ∧ (resolve4 domain = None → resolveCname domain = None →
     dnsPointsToWPE (Some r) installCname allDomainNames = false)
  ∧ dnsPointsToWPE None installCname allDomainNames = false.
Proof.
  intros r. split; [apply dnsPointsToWPE_iff_lookup|]. split; [|done].
  intros H4 Hc. subst r. by rewrite (dnsLookup_dead _ _ _ H4 Hc).
Qed.
